(** * osmo-trx-dec: burst detection cascade and demodulation orchestrator

    A shallow embedding of [Transceiver52M/osmo-trx-dec.cpp]: the option
    validator ([handle_options]), the detection cascade ([detectBurst]),
    the demodulation orchestrator ([demodulateBurst]) and the harness
    ([main]).  The signal-processing primitives of sigProcLib (energy
    estimator, correlators, demodulators) are external collaborators: they
    are taken as an interface and every call to them is recorded in a trace
    of events, next to everything the program prints or logs. *)

From Stdlib Require Import ZArith NArith QArith List String Ascii Bool Lia.
Import ListNotations.

Local Open Scope string_scope.
Local Open Scope list_scope.
Local Open Scope Z_scope.

(* ================================================================== *)
(** ** Machine integers and the [float] that carries a return code *)

Module MachineInt.

Definition UINT_MODULUS : Z := 2 ^ 32.
Definition INT_MAX : Z := 2 ^ 31 - 1.
Definition INT_MIN : Z := - 2 ^ 31.
Definition SHRT_MAX : Z := 32767.

(** [int -> unsigned]: reduction modulo 2^32 (e.g. [rx_sps = atoi(optarg)]). *)
Definition unsigned_of_int (z : Z) : N := Z.to_N (z mod UINT_MODULUS).

(** [unsigned -> int]: the value itself when it fits, two's complement
    otherwise (the [config.rx_sps] argument passed for [int SPSRx]). *)
Definition int_of_unsigned (n : N) : Z :=
  let z := Z.of_N n in
  if z <=? INT_MAX then z else z - UINT_MODULUS.

(** [a * b] in [unsigned] arithmetic, as in [20 * config.rx_sps]. *)
Definition unsigned_mul (a b : N) : N := ((a * b) mod (2 ^ 32))%N.

(** [int -> float] (IEEE binary32, round to nearest, ties to even).  The
    result is always an integer, so the float is represented by its value:
    integers below 2^24 in magnitude are exact, larger ones keep their 24
    leading bits. *)
Definition float_val_of_int (z : Z) : Z :=
  let a := Z.abs z in
  if a <? 2 ^ 24 then z
  else
    let ulp := 2 ^ (Z.log2 a - 23) in
    let q := a / ulp in
    let r := a mod ulp in
    let q' := match 2 * r ?= ulp with
              | Lt => q
              | Gt => q + 1
              | Eq => if Z.even q then q else q + 1
              end in
    Z.sgn z * (q' * ulp).

(** [float -> int] on an integer-valued float: truncation changes nothing. *)
Definition int_of_float_val (f : Z) : Z := f.

End MachineInt.
Import MachineInt.

(* ================================================================== *)
(** ** The platform and the signal-processing library *)

(** Codes for burst types of received bursts. *)
Inductive CorrType : Type :=
| OFF     (* timeslot is off *)
| TSC     (* timeslot should contain a normal burst *)
| RACH    (* timeslot should contain an access burst *)
| EDGE    (* timeslot should contain an EDGE burst *)
| IDLE.   (* timeslot is an idle (or dummy) burst *)

(** The enumerators' values: [OFF = 0], then counting up. *)
Definition int_of_CorrType (t : CorrType) : Z :=
  match t with OFF => 0 | TSC => 1 | RACH => 2 | EDGE => 3 | IDLE => 4 end.

(** The cast [(CorrType) rc]; an [int] that names no enumerator compares
    unequal to every one of them. *)
Definition CorrType_of_int (z : Z) : option CorrType :=
  match z with
  | 0 => Some OFF | 1 => Some TSC | 2 => Some RACH | 3 => Some EDGE | 4 => Some IDLE
  | _ => None
  end.

(** Number types, their arithmetic, and the pieces of libc and iostream the
    program calls.  Floating-point arithmetic is left uninterpreted: the
    development reasons about which expression the program computes, not
    about its IEEE value. *)
Class Platform : Type := {
  float : Type;
  double : Type;
  complex : Type;                       (* Complex<float> of signalVector.h *)
  Samples : Type;                       (* the storage of a signalVector *)
  SoftVector : Type;
  float_lit : Q -> float;               (* a literal such as [5.0] *)
  float_indeterminate : float;          (* an uninitialised [float] local *)
  double_indeterminate : double;        (* an uninitialised [double] local *)
  float_of_int : Z -> float;
  float_div : float -> float -> float;
  double_lit : Q -> double;
  double_of_int : Z -> double;
  double_of_float : float -> double;
  double_mul : double -> double -> double;
  double_div : double -> double -> double;
  log10 : double -> double;
  complex_default : complex;            (* [complex amp;] *)
  samples_alloc : N -> Samples;         (* [signalVector burst(n)] *)
  atoi : string -> Z;
  (* [file.read(buf, nbytes)] on the named file *)
  ifstream_read : string -> N -> Samples -> Samples
}.

Record signalVector `{Platform} : Type := {
  sv_size : N;
  sv_data : Samples
}.

(** Modelled from the spec: the interface of sigProcLib (sigProcLib.h is not
    part of the source at hand).  Section 6 of the spec gives each
    collaborator by its inputs and outputs; the out-parameters [amp], [toa]
    and [avg] are references in the calls, so each function receives their
    current contents and returns the new ones.  The two status codes are the
    ones the program names; their numeric values are not fixed here. *)
Class SigProcLib `{Platform} : Type := {
  SIGERR_NONE : Z;
  SIGERR_CLIP : Z;
  (* burst, windowLength, third argument, *avg  |->  *avg *)
  energyDetect : signalVector -> N -> float -> float -> float;
  (* burst, tsc, threshold, sps, amp, toa, max_toa  |->  rc, amp, toa *)
  detectEdgeBurst :
    signalVector -> N -> float -> N -> complex -> float -> N -> Z * complex * float;
  analyzeTrafficBurst :
    signalVector -> N -> float -> N -> complex -> float -> N -> Z * complex * float;
  (* burst, threshold, sps, amp, toa, max_toa  |->  rc, amp, toa *)
  detectRACHBurst :
    signalVector -> float -> N -> complex -> float -> N -> Z * complex * float;
  (* burst, sps, amp, toa  |->  soft bits or NULL *)
  demodEdgeBurst : signalVector -> N -> complex -> float -> option SoftVector;
  sigProc_demodulateBurst : signalVector -> N -> complex -> float -> option SoftVector
}.

Record trx_config `{Platform} : Type := {
  log_level : string;
  rx_sps : N;
  rtsc : N;
  max_expected_delay_nb : N;
  max_expected_delay_ab : N;
  rx_full_scale : double;
  edge : bool;
  type : CorrType;
  filename : string
}.

Inductive LogLevel : Type := ERR | WARNING.

(** Everything observable a run does, in program order. *)
Inductive Event `{Platform} : Type :=
| EvStdout (lines : list string)
| EvPrintf (format : string) (arg : Z)
| EvPrintConfig (config : trx_config)
| EvLog (level : LogLevel) (msg : string)
| EvLogInit (name level : string)
| EvFileRead (name : string) (nbytes : N)
| EvEnergyDetect (burst : signalVector) (windowLength : N) (arg3 : float)
| EvDetectEdgeBurst (burst : signalVector) (tsc : N) (threshold : float) (sps : N) (max_toa : N)
| EvAnalyzeTrafficBurst (burst : signalVector) (tsc : N) (threshold : float) (sps : N) (max_toa : N)
| EvDetectRACHBurst (burst : signalVector) (threshold : float) (sps : N) (max_toa : N)
| EvDemodEdgeBurst (burst : signalVector) (sps : N) (amp : complex) (toa : float)
| EvDemodulateBurst (burst : signalVector) (sps : N) (amp : complex) (toa : float).

(** How a computation ends: it returns, it calls [exit], or it runs into
    undefined behaviour (a [std::string] built from a null pointer). *)
Inductive Outcome (A : Type) : Type :=
| Returned (a : A)
| Exited (status : Z)
| Undefined.
Arguments Returned {A} a.
Arguments Exited {A} status.
Arguments Undefined {A}.

(** A computation: the events it caused and how it ended. *)
Definition M `{Platform} (A : Type) : Type := list Event * Outcome A.

Definition ret `{Platform} {A} (a : A) : M A := ([], Returned a).

Definition bind `{Platform} {A B} (m : M A) (k : A -> M B) : M B :=
  match m with
  | (tr, Returned a) => let (tr', o) := k a in (tr ++ tr', o)
  | (tr, Exited c) => (tr, Exited c)
  | (tr, Undefined) => (tr, Undefined)
  end.

Definition emit `{Platform} (e : Event) : M unit := ([e], Returned tt).
Definition exit `{Platform} {A} (status : Z) : M A := ([], Exited status).
Definition undefined `{Platform} {A} : M A := ([], Undefined).

Definition trace_of `{Platform} {A} (m : M A) : list Event := fst m.
Definition outcome_of `{Platform} {A} (m : M A) : Outcome A := snd m.

Declare Scope trx_scope.
Delimit Scope trx_scope with trx.
Notation "x <- m ;; k" := (bind m (fun x => k))
  (at level 61, m at next level, right associativity) : trx_scope.
Notation "' pat <- m ;; k" := (bind m (fun x => match x with pat => k end))
  (at level 61, pat pattern, m at next level, right associativity) : trx_scope.
Notation "m ;; k" := (bind m (fun _ => k))
  (at level 61, right associativity) : trx_scope.
Local Open Scope trx_scope.

(* ================================================================== *)
(** ** The program *)

Section Program.
Context `{Lib : SigProcLib}.

(** *** Calls into sigProcLib, each one recorded *)

Definition call_energyDetect (burst : signalVector) (windowLength : N)
    (arg3 avg : float) : M float :=
  emit (EvEnergyDetect burst windowLength arg3) ;;
  ret (energyDetect burst windowLength arg3 avg).

Definition call_detectEdgeBurst (burst : signalVector) (tsc : N) (threshold : float)
    (sps : N) (amp : complex) (toa : float) (max_toa : N) : M (Z * complex * float) :=
  emit (EvDetectEdgeBurst burst tsc threshold sps max_toa) ;;
  ret (detectEdgeBurst burst tsc threshold sps amp toa max_toa).

Definition call_analyzeTrafficBurst (burst : signalVector) (tsc : N) (threshold : float)
    (sps : N) (amp : complex) (toa : float) (max_toa : N) : M (Z * complex * float) :=
  emit (EvAnalyzeTrafficBurst burst tsc threshold sps max_toa) ;;
  ret (analyzeTrafficBurst burst tsc threshold sps amp toa max_toa).

Definition call_detectRACHBurst (burst : signalVector) (threshold : float)
    (sps : N) (amp : complex) (toa : float) (max_toa : N) : M (Z * complex * float) :=
  emit (EvDetectRACHBurst burst threshold sps max_toa) ;;
  ret (detectRACHBurst burst threshold sps amp toa max_toa).

Definition call_demodEdgeBurst (burst : signalVector) (sps : N) (amp : complex)
    (toa : float) : M (option SoftVector) :=
  emit (EvDemodEdgeBurst burst sps amp toa) ;;
  ret (demodEdgeBurst burst sps amp toa).

Definition call_demodulateBurst (burst : signalVector) (sps : N) (amp : complex)
    (toa : float) : M (option SoftVector) :=
  emit (EvDemodulateBurst burst sps amp toa) ;;
  ret (sigProc_demodulateBurst burst sps amp toa).

(** *** detectBurst *)

(** The [case TSC:] label of the switch; [case EDGE:] falls through to it
    after setting [type = TSC].  Yields the [float rc], the [type] local
    and the out-parameters. *)
Definition detectBurst_case_TSC (config : trx_config) (burst : signalVector)
    (amp : complex) (toa : float) (threshold : float)
    : M (Z * CorrType * complex * float) :=
  '(r, amp, toa) <- call_analyzeTrafficBurst burst config.(rtsc) threshold
                      config.(rx_sps) amp toa config.(max_expected_delay_nb) ;;
  ret (float_val_of_int r, TSC, amp, toa).

(** [int detectBurst(config, burst, amp, toa, type)]: the returned [int]
    with the final contents of [amp] and [toa]. *)
Definition detectBurst (config : trx_config) (burst : signalVector)
    (amp : complex) (toa : float) (type : CorrType) : M (Z * complex * float) :=
  let threshold := float_lit 5 in
  let rc := float_val_of_int 0 in
  '(rc, type, amp, toa) <-
    match type with
    | EDGE =>
        '(r, amp, toa) <- call_detectEdgeBurst burst config.(rtsc) threshold
                            config.(rx_sps) amp toa config.(max_expected_delay_nb) ;;
        let rc := float_val_of_int r in
        if rc >? 0 then ret (rc, EDGE, amp, toa)
        else detectBurst_case_TSC config burst amp toa threshold
    | TSC => detectBurst_case_TSC config burst amp toa threshold
    | RACH =>
        let threshold := float_lit 6 in
        '(r, amp, toa) <- call_detectRACHBurst burst threshold config.(rx_sps)
                            amp toa config.(max_expected_delay_ab) ;;
        ret (float_val_of_int r, RACH, amp, toa)
    | IDLE => ret (float_val_of_int SIGERR_NONE, IDLE, amp, toa)
    | _ =>
        emit (EvLog ERR "Invalid correlation type") ;;
        ret (rc, type, amp, toa)
    end ;;
  if rc >? 0 then ret (int_of_CorrType type, amp, toa)
  else ret (int_of_float_val rc, amp, toa).

(** The two [return] statements that close [detectBurst], as a function of
    the [float rc] and the [type] local the switch leaves behind. *)
Definition detectBurst_code (rc : Z) (type : CorrType) : Z :=
  if rc >? 0 then int_of_CorrType type else int_of_float_val rc.

(** *** demodulateBurst *)

(** From [timingOffset = toa / SPSRx] to the end: the value stored in
    [timingOffset] and the dispatch on [type == EDGE]. *)
Definition demodulateBurst_dispatch (config : trx_config) (burst : signalVector)
    (SPSRx : Z) (RSSI : double) (type : option CorrType) (amp : complex) (toa : float)
    : M (option SoftVector * double * double) :=
  let timingOffset := double_of_float (float_div toa (float_of_int SPSRx)) in
  match type with
  | Some EDGE =>
      softBits <- call_demodEdgeBurst burst config.(rx_sps) amp toa ;;
      ret (softBits, RSSI, timingOffset)
  | _ =>
      softBits <- call_demodulateBurst burst config.(rx_sps) amp toa ;;
      ret (softBits, RSSI, timingOffset)
  end.

(** The body of the [else if (rc <= 0)] branch up to its [return NULL]. *)
Definition report_detection_failure (rc : Z) : M unit :=
  if rc =? - SIGERR_CLIP then
    emit (EvStdout ["Clipping detected on received RACH or Normal Burst"])
  else if negb (rc =? SIGERR_NONE) then
    emit (EvLog WARNING "Unhandled RACH or Normal Burst detection error")
  else ret tt.

(** The value [demodulateBurst] stores in [RSSI]: the two statements under
    "Calculate average power of the burst", [avg] starting at [0.0]. *)
Definition RSSI_of (config : trx_config) (burst : signalVector) : double :=
  let avg := energyDetect burst (unsigned_mul 20 config.(rx_sps)) (float_lit 0)
               (float_lit 0) in
  double_mul (double_lit 20)
    (log10 (double_div config.(rx_full_scale) (double_of_float avg))).

(** The call of the energy estimator that opens [demodulateBurst]. *)
Definition energy_event (config : trx_config) (burst : signalVector) : Event :=
  EvEnergyDetect burst (unsigned_mul 20 config.(rx_sps)) (float_lit 0).

(** [SoftVector *demodulateBurst(config, burst, SPSRx, RSSI, timingOffset, type)]:
    the returned pointer ([None] for [NULL]) with the contents of the two
    out-parameters on return; [RSSI] and [timingOffset] are their contents
    on entry. *)
Definition demodulateBurst (config : trx_config) (burst : signalVector) (SPSRx : Z)
    (RSSI timingOffset : double) (type : CorrType)
    : M (option SoftVector * double * double) :=
  let amp := complex_default in
  let toa := float_indeterminate in
  let avg := float_lit 0 in
  (* Calculate average power of the burst *)
  avg <- call_energyDetect burst (unsigned_mul 20 config.(rx_sps)) (float_lit 0) avg ;;
  let RSSI := double_mul (double_lit 20)
                (log10 (double_div config.(rx_full_scale) (double_of_float avg))) in
  (* Detect normal or RACH bursts *)
  '(rc, amp, toa) <- detectBurst config burst amp toa type ;;
  if rc >? 0 then
    demodulateBurst_dispatch config burst SPSRx RSSI (CorrType_of_int rc) amp toa
  else if rc <=? 0 then
    report_detection_failure rc ;;
    ret (None, RSSI, timingOffset)
  else
    demodulateBurst_dispatch config burst SPSRx RSSI (Some type) amp toa.

(** *** Options *)

Definition help_text : list string :=
  [ "Options:";
    "  -h          This text";
    "  -l LEVEL    Logging level (EMERG, ALERT, CRT, ERR, WARNING, NOTICE, INFO, DEBUG)";
    "  -e          Enable EDGE receiver";
    "  -s SPS      Samples-per-symbol (1 or 4)";
    "  -t TSC      Burst training sequence (1 to 7)";
    "  -f FILE     File to read" ].

Definition print_help : M unit := emit (EvStdout help_text).

Definition print_config (config : trx_config) : M unit :=
  emit (EvPrintConfig config).

Definition DEFAULT_RX_SPS : Z := 1.

(** The assignments at the top of [handle_options]; [filename] is the
    default-constructed [std::string]. *)
Definition default_config : trx_config :=
  {| log_level := "NOTICE";
     rx_sps := unsigned_of_int DEFAULT_RX_SPS;
     rtsc := 0;
     max_expected_delay_nb := 30;
     max_expected_delay_ab := 30;
     rx_full_scale := double_of_int SHRT_MAX;
     edge := false;
     type := TSC;
     filename := "" |}.

Definition set_log_level (c : trx_config) (v : string) : trx_config :=
  {| log_level := v; rx_sps := c.(rx_sps); rtsc := c.(rtsc);
     max_expected_delay_nb := c.(max_expected_delay_nb);
     max_expected_delay_ab := c.(max_expected_delay_ab);
     rx_full_scale := c.(rx_full_scale); edge := c.(edge);
     type := c.(type); filename := c.(filename) |}.

Definition set_rx_sps (c : trx_config) (v : N) : trx_config :=
  {| log_level := c.(log_level); rx_sps := v; rtsc := c.(rtsc);
     max_expected_delay_nb := c.(max_expected_delay_nb);
     max_expected_delay_ab := c.(max_expected_delay_ab);
     rx_full_scale := c.(rx_full_scale); edge := c.(edge);
     type := c.(type); filename := c.(filename) |}.

Definition set_rtsc (c : trx_config) (v : N) : trx_config :=
  {| log_level := c.(log_level); rx_sps := c.(rx_sps); rtsc := v;
     max_expected_delay_nb := c.(max_expected_delay_nb);
     max_expected_delay_ab := c.(max_expected_delay_ab);
     rx_full_scale := c.(rx_full_scale); edge := c.(edge);
     type := c.(type); filename := c.(filename) |}.

Definition set_edge (c : trx_config) (v : bool) : trx_config :=
  {| log_level := c.(log_level); rx_sps := c.(rx_sps); rtsc := c.(rtsc);
     max_expected_delay_nb := c.(max_expected_delay_nb);
     max_expected_delay_ab := c.(max_expected_delay_ab);
     rx_full_scale := c.(rx_full_scale); edge := v;
     type := c.(type); filename := c.(filename) |}.

Definition set_filename (c : trx_config) (v : string) : trx_config :=
  {| log_level := c.(log_level); rx_sps := c.(rx_sps); rtsc := c.(rtsc);
     max_expected_delay_nb := c.(max_expected_delay_nb);
     max_expected_delay_ab := c.(max_expected_delay_ab);
     rx_full_scale := c.(rx_full_scale); edge := c.(edge);
     type := c.(type); filename := v |}.

(** Using [optarg] as a C string: a null pointer is undefined behaviour. *)
Definition c_str (optarg : option string) : M string :=
  match optarg with
  | Some s => ret s
  | None => undefined
  end.

(** The [while ((option = getopt(...)) != -1)] loop, over the successive
    results of [getopt]: the option character with the [optarg] it left. *)
Fixpoint getopt_loop (results : list (ascii * option string)) (config : trx_config)
    : M trx_config :=
  match results with
  | [] => ret config
  | (option, optarg) :: results =>
      match option with
      | "l"%char => v <- c_str optarg ;; getopt_loop results (set_log_level config v)
      | "s"%char =>
          v <- c_str optarg ;;
          getopt_loop results (set_rx_sps config (unsigned_of_int (atoi v)))
      | "e"%char => getopt_loop results (set_edge config true)
      | "t"%char =>
          v <- c_str optarg ;;
          getopt_loop results (set_rtsc config (unsigned_of_int (atoi v)))
      | "f"%char => v <- c_str optarg ;; getopt_loop results (set_filename config v)
      | _ => print_help ;; exit 0
      end
  end.

(** The three checks that close [handle_options]. *)
Definition check_config (config : trx_config) : M trx_config :=
  (if negb (config.(rx_sps) =? 1)%N && negb (config.(rx_sps) =? 4)%N then
     emit (EvPrintf "Unsupported samples-per-symbol %i" (int_of_unsigned config.(rx_sps))) ;;
     print_help ;;
     exit 0
   else ret tt) ;;
  (if config.(edge) && negb (config.(rx_sps) =? 4)%N then
     emit (EvStdout ["EDGE only supported at 4 samples per symbol"]) ;;
     print_help ;;
     exit 0
   else ret tt) ;;
  (if (7 <? config.(rtsc))%N then
     emit (EvPrintf "Invalid training sequence %i" (int_of_unsigned config.(rtsc))) ;;
     print_help ;;
     exit 0
   else ret tt) ;;
  ret config.

(** The configurations the validator is specified to accept: 1 or 4
    samples per symbol, a training sequence in [0,7], and EDGE only at 4
    samples per symbol. *)
Definition config_valid (config : trx_config) : Prop :=
  (config.(rx_sps) = 1 \/ config.(rx_sps) = 4)%N
  /\ (0 <= config.(rtsc) <= 7)%N
  /\ (config.(edge) = true -> config.(rx_sps) = 4%N).

Definition handle_options (results : list (ascii * option string)) : M trx_config :=
  config <- getopt_loop results default_config ;;
  check_config config.

(** *** main *)

Definition sizeof_float : N := 4.

(** [signalVector burst(n)]. *)
Definition signalVector_new (n : N) : signalVector :=
  {| sv_size := n; sv_data := samples_alloc n |}.

(** [file.read((char* )burst.begin(), nbytes)]: the samples change, the
    size of the vector does not. *)
Definition file_read (name : string) (burst : signalVector) (nbytes : N)
    : M signalVector :=
  emit (EvFileRead name nbytes) ;;
  ret {| sv_size := burst.(sv_size);
         sv_data := ifstream_read name nbytes burst.(sv_data) |}.

(** [main] from the declaration of [burst] on. *)
Definition main_burst (config : trx_config) : M Z :=
  let burst := signalVector_new 156 in
  let RSSI := double_indeterminate in
  let timingOffset := double_indeterminate in
  burst <- file_read config.(filename) burst (burst.(sv_size) * 2 * sizeof_float)%N ;;
  '(softBits, RSSI, timingOffset) <-
    demodulateBurst config burst (int_of_unsigned config.(rx_sps)) RSSI timingOffset
      config.(type) ;;
  ret 0.

Definition main (results : list (ascii * option string)) : M Z :=
  (* Process command line options and print config to screen *)
  config <- handle_options results ;;
  print_config config ;;
  emit (EvLogInit "transceiver" config.(log_level)) ;;
  main_burst config.

(** *** Vocabulary for statements about runs *)

(** The option characters the [switch] of [handle_options] names; every
    other result of [getopt] (['h'], ['?'], ...) takes the [default:] label. *)
Definition sets_field (option : ascii) : bool :=
  match option with
  | "l"%char | "s"%char | "e"%char | "t"%char | "f"%char => true
  | _ => false
  end.

(** The options whose case reads [optarg]. *)
Definition reads_optarg (option : ascii) : bool :=
  match option with
  | "l"%char | "s"%char | "t"%char | "f"%char => true
  | _ => false
  end.

(** Calls of the EDGE demodulator. *)
Definition is_EDGE_demodulation (e : Event) : bool :=
  match e with
  | EvDemodEdgeBurst _ _ _ _ => true
  | _ => false
  end.

(** Calls of an EDGE or RACH primitive. *)
Definition is_EDGE_or_RACH_call (e : Event) : bool :=
  match e with
  | EvDetectEdgeBurst _ _ _ _ _ | EvDetectRACHBurst _ _ _ _
  | EvDemodEdgeBurst _ _ _ _ => true
  | _ => false
  end.

(** Two configurations that agree on the fields [demodulateBurst] and
    [detectBurst] read. *)
Definition same_detection_inputs (c1 c2 : trx_config) : Prop :=
  c1.(rx_sps) = c2.(rx_sps)
  /\ c1.(rtsc) = c2.(rtsc)
  /\ c1.(max_expected_delay_nb) = c2.(max_expected_delay_nb)
  /\ c1.(max_expected_delay_ab) = c2.(max_expected_delay_ab)
  /\ c1.(rx_full_scale) = c2.(rx_full_scale).

(** The fields no command-line option assigns. *)
Definition same_fixed_fields (c1 c2 : trx_config) : Prop :=
  c1.(type) = c2.(type)
  /\ c1.(max_expected_delay_nb) = c2.(max_expected_delay_nb)
  /\ c1.(max_expected_delay_ab) = c2.(max_expected_delay_ab)
  /\ c1.(rx_full_scale) = c2.(rx_full_scale).

End Program.

(* ================================================================== *)
(** ** A test bench: concrete collaborators to run the program on *)

Module Bench.

(** [atoi] on an optional minus sign followed by decimal digits. *)
Fixpoint digits (s : string) (acc : Z) : Z :=
  match s with
  | EmptyString => acc
  | String c s' =>
      let d := Z.of_nat (nat_of_ascii c) - 48 in
      if (0 <=? d) && (d <=? 9) then digits s' (10 * acc + d) else acc
  end.

Definition decimal_atoi (s : string) : Z :=
  match s with
  | String "-"%char s' => - digits s' 0
  | _ => digits s 0
  end.

(** Numbers are rationals; [log10] is a placeholder, the bench only looks
    at control flow. *)
Definition platform : Platform :=
  {| float := Q; double := Q; complex := Q * Q; Samples := list (Q * Q);
     SoftVector := list Z;
     float_lit := fun q => q;
     float_indeterminate := 0%Q;
     double_indeterminate := 0%Q;
     float_of_int := inject_Z;
     float_div := Qdiv;
     double_lit := fun q => q;
     double_of_int := inject_Z;
     double_of_float := fun q => q;
     double_mul := Qmult;
     double_div := Qdiv;
     log10 := fun q => q;
     complex_default := (0%Q, 0%Q);
     samples_alloc := fun n => repeat (0%Q, 0%Q) (N.to_nat n);
     atoi := decimal_atoi;
     ifstream_read := fun _ _ data => data |}.

#[local] Existing Instance platform.

(** A library whose correlators answer with fixed codes, amplitude 1 and a
    time of arrival of 2 samples, and whose demodulators return one soft
    bit naming the demodulator. *)
Definition lib (edge_rc tsc_rc rach_rc : Z) : SigProcLib :=
  {| SIGERR_NONE := 0;
     SIGERR_CLIP := 2;
     energyDetect := fun _ _ _ _ => 100%Q;
     detectEdgeBurst := fun _ _ _ _ _ _ _ => (edge_rc, (1%Q, 0%Q), 2%Q);
     analyzeTrafficBurst := fun _ _ _ _ _ _ _ => (tsc_rc, (1%Q, 0%Q), 2%Q);
     detectRACHBurst := fun _ _ _ _ _ _ => (rach_rc, (1%Q, 0%Q), 2%Q);
     demodEdgeBurst := fun _ _ _ _ => Some [3];
     sigProc_demodulateBurst := fun _ _ _ _ => Some [1] |}.

Definition config (sps : N) (e : bool) (t : N) : trx_config :=
  {| log_level := "NOTICE"; rx_sps := sps; rtsc := t;
     max_expected_delay_nb := 30; max_expected_delay_ab := 30;
     rx_full_scale := inject_Z SHRT_MAX; edge := e; type := TSC;
     filename := "burst.cfile" |}.

Definition burst : signalVector :=
  {| sv_size := 156; sv_data := samples_alloc 156 |}.

End Bench.

(* ================================================================== *)
(** ** Facts about the conversions *)

Module MachineIntFacts.

Lemma float_val_of_int_small (z : Z) :
  Z.abs z < 2 ^ 24 -> float_val_of_int z = z.
Proof.
  intros H. unfold float_val_of_int.
  destruct (Z.ltb_spec (Z.abs z) (2 ^ 24)); [reflexivity | lia].
Qed.

(** The magnitude a large integer is rounded to is strictly positive. *)
Lemma rounded_magnitude_pos (a : Z) :
  2 ^ 24 <= a ->
  let ulp := 2 ^ (Z.log2 a - 23) in
  let q := a / ulp in
  0 < ulp /\ 0 < q.
Proof.
  intros Ha ulp q.
  assert (Hlog : 24 <= Z.log2 a).
  { change 24 with (Z.log2 (2 ^ 24)). now apply Z.log2_le_mono. }
  assert (Hulp : 0 < ulp) by (apply Z.pow_pos_nonneg; lia).
  split; [exact Hulp|].
  assert (Hle : ulp <= a).
  { transitivity (2 ^ Z.log2 a).
    - apply Z.pow_le_mono_r; lia.
    - apply Z.log2_spec; lia. }
  apply Z.div_str_pos; lia.
Qed.

(** Conversion to [float] never changes the sign of an [int]. *)
Lemma float_val_of_int_sgn (z : Z) : Z.sgn (float_val_of_int z) = Z.sgn z.
Proof.
  unfold float_val_of_int.
  destruct (Z.ltb_spec (Z.abs z) (2 ^ 24)) as [|Hbig]; [reflexivity|].
  destruct (rounded_magnitude_pos (Z.abs z) Hbig) as [Hulp Hq].
  set (ulp := 2 ^ (Z.log2 (Z.abs z) - 23)) in *.
  set (q := Z.abs z / ulp) in *.
  set (q' := match 2 * (Z.abs z mod ulp) ?= ulp with
             | Lt => q | Gt => q + 1
             | Eq => if Z.even q then q else q + 1 end).
  assert (Hq' : 0 < q').
  { unfold q'. destruct (2 * (Z.abs z mod ulp) ?= ulp); [destruct (Z.even q)| |]; lia. }
  rewrite Z.sgn_mul, (Z.sgn_pos (q' * ulp)) by nia.
  rewrite Z.sgn_sgn. lia.
Qed.

Lemma float_val_of_int_pos (z : Z) : 0 < float_val_of_int z <-> 0 < z.
Proof.
  pose proof (float_val_of_int_sgn z) as H.
  destruct (Z.sgn_spec z) as [[? E]|[[? E]|[? E]]];
    destruct (Z.sgn_spec (float_val_of_int z)) as [[? E']|[[? E']|[? E']]]; lia.
Qed.

Lemma float_val_of_int_nonpos (z : Z) : float_val_of_int z <= 0 <-> z <= 0.
Proof. pose proof (float_val_of_int_pos z). lia. Qed.


End MachineIntFacts.
Import MachineIntFacts.

(* ================================================================== *)
(** ** Properties of the program *)

Section Properties.
Context `{Lib : SigProcLib}.

(** *** Sequencing *)

Lemma bind_returned {A B} (tr : list Event) (a : A) (k : A -> M B) :
  bind (tr, Returned a) k = (tr ++ trace_of (k a), outcome_of (k a)).
Proof. unfold bind, trace_of, outcome_of. now destruct (k a). Qed.

Lemma bind_exited {A B} (tr : list Event) (c : Z) (k : A -> M B) :
  bind (tr, Exited c) k = (tr, Exited c).
Proof. reflexivity. Qed.

Lemma bind_emit {B} (e : Event) (k : unit -> M B) :
  bind (emit e) k = (e :: trace_of (k tt), outcome_of (k tt)).
Proof. unfold emit. now rewrite bind_returned. Qed.

Lemma bind_ret {A B} (a : A) (k : A -> M B) : bind (ret a) k = k a.
Proof. unfold ret. rewrite bind_returned. now destruct (k a). Qed.

Lemma M_eta {A} (m : M A) : (trace_of m, outcome_of m) = m.
Proof. now destruct m. Qed.

(** *** detectBurst, one case of the switch at a time *)

Lemma detectBurst_code_pos (r : Z) (type : CorrType) :
  0 < r -> detectBurst_code (float_val_of_int r) type = int_of_CorrType type.
Proof.
  intros Hr. unfold detectBurst_code.
  apply float_val_of_int_pos in Hr.
  destruct (Z.gtb_spec (float_val_of_int r) 0); [reflexivity | lia].
Qed.

Lemma detectBurst_code_nonpos (r : Z) (type : CorrType) :
  r <= 0 ->
  detectBurst_code (float_val_of_int r) type = float_val_of_int r /\
  float_val_of_int r <= 0.
Proof.
  intros Hr. unfold detectBurst_code, int_of_float_val.
  apply float_val_of_int_nonpos in Hr.
  destruct (Z.gtb_spec (float_val_of_int r) 0); [lia | now split].
Qed.

Lemma detectBurst_TSC (config : trx_config) (burst : signalVector)
    (amp : complex) (toa : float) (r : Z) (amp' : complex) (toa' : float) :
  analyzeTrafficBurst burst config.(rtsc) (float_lit 5) config.(rx_sps) amp toa
    config.(max_expected_delay_nb) = (r, amp', toa') ->
  detectBurst config burst amp toa TSC =
    ([EvAnalyzeTrafficBurst burst config.(rtsc) (float_lit 5) config.(rx_sps)
        config.(max_expected_delay_nb)],
     Returned (detectBurst_code (float_val_of_int r) TSC, amp', toa')).
Proof.
  intros E. unfold detectBurst, detectBurst_case_TSC, call_analyzeTrafficBurst.
  rewrite E. unfold detectBurst_code, bind, emit, ret. cbn.
  now destruct (float_val_of_int r >? 0).
Qed.

Lemma detectBurst_RACH (config : trx_config) (burst : signalVector)
    (amp : complex) (toa : float) (r : Z) (amp' : complex) (toa' : float) :
  detectRACHBurst burst (float_lit 6) config.(rx_sps) amp toa
    config.(max_expected_delay_ab) = (r, amp', toa') ->
  detectBurst config burst amp toa RACH =
    ([EvDetectRACHBurst burst (float_lit 6) config.(rx_sps)
        config.(max_expected_delay_ab)],
     Returned (detectBurst_code (float_val_of_int r) RACH, amp', toa')).
Proof.
  intros E. unfold detectBurst, call_detectRACHBurst.
  rewrite E. unfold detectBurst_code, bind, emit, ret. cbn.
  now destruct (float_val_of_int r >? 0).
Qed.

Lemma detectBurst_EDGE_hit (config : trx_config) (burst : signalVector)
    (amp : complex) (toa : float) (r : Z) (amp' : complex) (toa' : float) :
  detectEdgeBurst burst config.(rtsc) (float_lit 5) config.(rx_sps) amp toa
    config.(max_expected_delay_nb) = (r, amp', toa') ->
  0 < r ->
  detectBurst config burst amp toa EDGE =
    ([EvDetectEdgeBurst burst config.(rtsc) (float_lit 5) config.(rx_sps)
        config.(max_expected_delay_nb)],
     Returned (int_of_CorrType EDGE, amp', toa')).
Proof.
  intros E Hr. unfold detectBurst, call_detectEdgeBurst.
  rewrite E. apply float_val_of_int_pos in Hr.
  unfold bind, emit, ret. cbn.
  destruct (Z.gtb_spec (float_val_of_int r) 0) as [_|]; [|lia]. cbn.
  destruct (Z.gtb_spec (float_val_of_int r) 0) as [_|]; [reflexivity|lia].
Qed.

Lemma detectBurst_EDGE_miss (config : trx_config) (burst : signalVector)
    (amp : complex) (toa : float) (r1 r2 : Z) (amp1 amp2 : complex)
    (toa1 toa2 : float) :
  detectEdgeBurst burst config.(rtsc) (float_lit 5) config.(rx_sps) amp toa
    config.(max_expected_delay_nb) = (r1, amp1, toa1) ->
  r1 <= 0 ->
  analyzeTrafficBurst burst config.(rtsc) (float_lit 5) config.(rx_sps) amp1 toa1
    config.(max_expected_delay_nb) = (r2, amp2, toa2) ->
  detectBurst config burst amp toa EDGE =
    ([EvDetectEdgeBurst burst config.(rtsc) (float_lit 5) config.(rx_sps)
        config.(max_expected_delay_nb);
      EvAnalyzeTrafficBurst burst config.(rtsc) (float_lit 5) config.(rx_sps)
        config.(max_expected_delay_nb)],
     Returned (detectBurst_code (float_val_of_int r2) TSC, amp2, toa2)).
Proof.
  intros E1 Hr E2.
  unfold detectBurst, detectBurst_case_TSC, call_detectEdgeBurst,
    call_analyzeTrafficBurst.
  rewrite E1. apply float_val_of_int_nonpos in Hr.
  unfold bind, emit, ret. cbn.
  destruct (Z.gtb_spec (float_val_of_int r1) 0) as [|_]; [lia|].
  rewrite E2. cbn. unfold detectBurst_code.
  now destruct (float_val_of_int r2 >? 0).
Qed.

Lemma detectBurst_IDLE (config : trx_config) (burst : signalVector)
    (amp : complex) (toa : float) :
  detectBurst config burst amp toa IDLE =
    ([], Returned (detectBurst_code (float_val_of_int SIGERR_NONE) IDLE, amp, toa)).
Proof.
  unfold detectBurst, detectBurst_code, bind, ret. cbn.
  now destruct (float_val_of_int SIGERR_NONE >? 0).
Qed.

Lemma detectBurst_OFF (config : trx_config) (burst : signalVector)
    (amp : complex) (toa : float) :
  detectBurst config burst amp toa OFF =
    ([EvLog ERR "Invalid correlation type"], Returned (0, amp, toa)).
Proof. reflexivity. Qed.

(** [detectBurst] always returns to its caller. *)
Lemma detectBurst_returns (config : trx_config) (burst : signalVector)
    (amp : complex) (toa : float) (type : CorrType) :
  exists tr rc amp' toa',
    detectBurst config burst amp toa type = (tr, Returned (rc, amp', toa')).
Proof.
  destruct type.
  - rewrite detectBurst_OFF. eauto.
  - destruct (analyzeTrafficBurst burst config.(rtsc) (float_lit 5) config.(rx_sps)
                amp toa config.(max_expected_delay_nb)) as [[r a] t] eqn:E.
    rewrite (detectBurst_TSC _ _ _ _ _ _ _ E). eauto.
  - destruct (detectRACHBurst burst (float_lit 6) config.(rx_sps) amp toa
                config.(max_expected_delay_ab)) as [[r a] t] eqn:E.
    rewrite (detectBurst_RACH _ _ _ _ _ _ _ E). eauto.
  - destruct (detectEdgeBurst burst config.(rtsc) (float_lit 5) config.(rx_sps)
                amp toa config.(max_expected_delay_nb)) as [[r1 a1] t1] eqn:E1.
    destruct (Z.lt_ge_cases 0 r1) as [Hr|Hr].
    + rewrite (detectBurst_EDGE_hit _ _ _ _ _ _ _ E1 Hr). eauto.
    + destruct (analyzeTrafficBurst burst config.(rtsc) (float_lit 5)
                  config.(rx_sps) a1 t1 config.(max_expected_delay_nb))
        as [[r2 a2] t2] eqn:E2.
      rewrite (detectBurst_EDGE_miss _ _ _ _ _ _ _ _ _ _ E1 Hr E2). eauto.
  - rewrite detectBurst_IDLE. eauto.
Qed.

(** *** demodulateBurst, by the sign of the code [detectBurst] returns *)

Lemma call_energyDetect_runs (burst : signalVector) (windowLength : N)
    (arg3 avg : float) :
  call_energyDetect burst windowLength arg3 avg =
    ([EvEnergyDetect burst windowLength arg3],
     Returned (energyDetect burst windowLength arg3 avg)).
Proof. reflexivity. Qed.

Lemma report_detection_failure_returns (rc : Z) :
  outcome_of (report_detection_failure rc) = Returned tt.
Proof.
  unfold report_detection_failure.
  destruct (rc =? - SIGERR_CLIP); [reflexivity|].
  now destruct (rc =? SIGERR_NONE).
Qed.

Lemma demodulateBurst_abort (config : trx_config) (burst : signalVector)
    (SPSRx : Z) (RSSI timingOffset : double) (type : CorrType)
    (tr : list Event) (rc : Z) (amp : complex) (toa : float) :
  detectBurst config burst complex_default float_indeterminate type
    = (tr, Returned (rc, amp, toa)) ->
  rc <= 0 ->
  demodulateBurst config burst SPSRx RSSI timingOffset type =
    (energy_event config burst :: tr ++ trace_of (report_detection_failure rc),
     Returned (None, RSSI_of config burst, timingOffset)).
Proof.
  intros E Hrc. unfold demodulateBurst.
  rewrite call_energyDetect_runs, bind_returned, E, bind_returned.
  destruct (Z.gtb_spec rc 0) as [|_]; [lia|].
  destruct (Z.leb_spec rc 0) as [_|]; [|lia].
  pose proof (report_detection_failure_returns rc) as R.
  destruct (report_detection_failure rc) as [tr' o]. cbn in R. subst o.
  cbn. now rewrite app_nil_r.
Qed.

Lemma demodulateBurst_proceed (config : trx_config) (burst : signalVector)
    (SPSRx : Z) (RSSI timingOffset : double) (type : CorrType)
    (tr : list Event) (rc : Z) (amp : complex) (toa : float) :
  detectBurst config burst complex_default float_indeterminate type
    = (tr, Returned (rc, amp, toa)) ->
  0 < rc ->
  let m := demodulateBurst_dispatch config burst SPSRx (RSSI_of config burst)
             (CorrType_of_int rc) amp toa in
  demodulateBurst config burst SPSRx RSSI timingOffset type =
    (energy_event config burst :: tr ++ trace_of m, outcome_of m).
Proof.
  intros E Hrc m. unfold demodulateBurst.
  rewrite call_energyDetect_runs, bind_returned, E, bind_returned.
  destruct (Z.gtb_spec rc 0) as [_|]; [|lia].
  reflexivity.
Qed.

Lemma dispatch_EDGE (config : trx_config) (burst : signalVector) (SPSRx : Z)
    (RSSI : double) (amp : complex) (toa : float) :
  demodulateBurst_dispatch config burst SPSRx RSSI (Some EDGE) amp toa =
    ([EvDemodEdgeBurst burst config.(rx_sps) amp toa],
     Returned (demodEdgeBurst burst config.(rx_sps) amp toa, RSSI,
               double_of_float (float_div toa (float_of_int SPSRx)))).
Proof. reflexivity. Qed.

Lemma dispatch_generic (config : trx_config) (burst : signalVector) (SPSRx : Z)
    (RSSI : double) (type : option CorrType) (amp : complex) (toa : float) :
  type <> Some EDGE ->
  demodulateBurst_dispatch config burst SPSRx RSSI type amp toa =
    ([EvDemodulateBurst burst config.(rx_sps) amp toa],
     Returned (sigProc_demodulateBurst burst config.(rx_sps) amp toa, RSSI,
               double_of_float (float_div toa (float_of_int SPSRx)))).
Proof.
  intros Hne. destruct type as [[]|]; try reflexivity. congruence.
Qed.

Lemma CorrType_of_int_EDGE (z : Z) :
  CorrType_of_int z = Some EDGE <-> z = int_of_CorrType EDGE.
Proof.
  split.
  - intros Hz. destruct z as [|p|p]; try discriminate.
    destruct p as [[[q|q|]|[q|q|]|]|[[q|q|]|[q|q|]|]|];
      cbn in Hz; try discriminate; reflexivity.
  - intros ->. reflexivity.
Qed.

(** Every call of [demodulateBurst] returns: it starts with the energy
    estimator, runs the cascade, and leaves [RSSI_of] in [RSSI]. *)
Lemma demodulateBurst_shape (config : trx_config) (burst : signalVector)
    (SPSRx : Z) (RSSI timingOffset : double) (type : CorrType) :
  exists tr' softBits timingOffset',
    demodulateBurst config burst SPSRx RSSI timingOffset type =
      (energy_event config burst ::
         trace_of (detectBurst config burst complex_default float_indeterminate type)
         ++ tr',
       Returned (softBits, RSSI_of config burst, timingOffset')).
Proof.
  destruct (detectBurst_returns config burst complex_default float_indeterminate type)
    as (tr & rc & amp & toa & E).
  destruct (Z.lt_ge_cases 0 rc) as [Hrc|Hrc].
  - rewrite (demodulateBurst_proceed _ _ SPSRx RSSI timingOffset _ _ _ _ _ E Hrc).
    rewrite E. cbn [trace_of fst].
    destruct (CorrType_of_int rc) as [[]|] eqn:Ety;
      first [ rewrite dispatch_EDGE | rewrite dispatch_generic by discriminate ];
      do 3 eexists; reflexivity.
  - rewrite (demodulateBurst_abort _ _ SPSRx RSSI timingOffset _ _ _ _ _ E Hrc).
    rewrite E. do 3 eexists; reflexivity.
Qed.

(** *** The detection cascade *)

(** C1: when type EDGE is requested and the EDGE correlator returns a
    non-positive score, the normal-burst correlator is invoked next on the
    same burst, with the same threshold 5.0 and the normal-burst delay
    bound; if it returns a positive score, detectBurst returns TSC, which
    is not EDGE. *)
Theorem detectBurst_EDGE_falls_back_to_TSC (config : trx_config)
    (burst : signalVector) (amp : complex) (toa : float)
    (r1 r2 : Z) (amp1 amp2 : complex) (toa1 toa2 : float) :
  detectEdgeBurst burst config.(rtsc) (float_lit 5) config.(rx_sps) amp toa
    config.(max_expected_delay_nb) = (r1, amp1, toa1) ->
  r1 <= 0 ->
  analyzeTrafficBurst burst config.(rtsc) (float_lit 5) config.(rx_sps) amp1 toa1
    config.(max_expected_delay_nb) = (r2, amp2, toa2) ->
  trace_of (detectBurst config burst amp toa EDGE) =
    [EvDetectEdgeBurst burst config.(rtsc) (float_lit 5) config.(rx_sps)
       config.(max_expected_delay_nb);
     EvAnalyzeTrafficBurst burst config.(rtsc) (float_lit 5) config.(rx_sps)
       config.(max_expected_delay_nb)]
  /\ (0 < r2 ->
      outcome_of (detectBurst config burst amp toa EDGE) =
        Returned (int_of_CorrType TSC, amp2, toa2)
      /\ int_of_CorrType TSC <> int_of_CorrType EDGE).
Proof.
  intros E1 Hr1 E2.
  rewrite (detectBurst_EDGE_miss _ _ _ _ _ _ _ _ _ _ E1 Hr1 E2).
  split; [reflexivity|].
  intros Hr2. cbn [outcome_of snd].
  rewrite (detectBurst_code_pos _ _ Hr2). split; [reflexivity | discriminate].
Qed.

(** C7: with requested type IDLE, detectBurst invokes no correlator (its
    trace is empty) and returns the neutral code SIGERR_NONE, whatever the
    burst holds; that code is not positive. *)
Theorem detectBurst_IDLE_is_neutral (config : trx_config) (burst : signalVector)
    (amp : complex) (toa : float) :
  SIGERR_NONE <= 0 ->
  Z.abs SIGERR_NONE < 2 ^ 24 ->
  detectBurst config burst amp toa IDLE = ([], Returned (SIGERR_NONE, amp, toa)).
Proof.
  intros Hneutral Hexact. rewrite detectBurst_IDLE.
  destruct (detectBurst_code_nonpos SIGERR_NONE IDLE Hneutral) as [-> _].
  now rewrite float_val_of_int_small.
Qed.

(** C9: for a requested type other than EDGE, TSC, RACH and IDLE,
    detectBurst logs the invalid-type error, invokes no correlator and
    returns the non-positive code 0; demodulateBurst then returns NULL
    without invoking a demodulator. *)
Theorem invalid_type_is_logged_and_aborts (config : trx_config)
    (burst : signalVector) (SPSRx : Z) (RSSI timingOffset : double)
    (amp : complex) (toa : float) (type : CorrType) :
  type <> EDGE -> type <> TSC -> type <> RACH -> type <> IDLE ->
  detectBurst config burst amp toa type =
    ([EvLog ERR "Invalid correlation type"], Returned (0, amp, toa))
  /\ demodulateBurst config burst SPSRx RSSI timingOffset type =
       (energy_event config burst :: EvLog ERR "Invalid correlation type"
          :: trace_of (report_detection_failure 0),
        Returned (None, RSSI_of config burst, timingOffset)).
Proof.
  intros He Ht Hr Hi. destruct type; try congruence.
  split; [apply detectBurst_OFF|].
  now rewrite (demodulateBurst_abort _ _ SPSRx RSSI timingOffset _ _ _ _ _
                 (detectBurst_OFF config burst _ _)) by lia.
Qed.

(** *** The demodulation orchestrator *)

(** C2: demodulateBurst always returns to its caller (no call ends the
    process); whenever detectBurst returns a non-positive code it returns
    NULL; on the clipping code it prints the clipping message, on the
    neutral code (when that differs from the clipping code) it reports
    nothing, and on every other non-positive code it logs the
    unhandled-detection warning. *)
Theorem detection_failure_is_reported_and_local (config : trx_config)
    (burst : signalVector) (SPSRx : Z) (RSSI timingOffset : double)
    (type : CorrType) :
  let run := demodulateBurst config burst SPSRx RSSI timingOffset type in
  (exists v, outcome_of run = Returned v)
  /\ forall tr rc amp toa,
       detectBurst config burst complex_default float_indeterminate type
         = (tr, Returned (rc, amp, toa)) ->
       rc <= 0 ->
       outcome_of run = Returned (None, RSSI_of config burst, timingOffset)
       /\ (rc = - SIGERR_CLIP ->
           trace_of run =
             energy_event config burst :: tr ++
               [EvStdout ["Clipping detected on received RACH or Normal Burst"]])
       /\ (rc = SIGERR_NONE -> SIGERR_NONE <> - SIGERR_CLIP ->
           trace_of run = energy_event config burst :: tr)
       /\ (rc <> - SIGERR_CLIP -> rc <> SIGERR_NONE ->
           trace_of run =
             energy_event config burst :: tr ++
               [EvLog WARNING "Unhandled RACH or Normal Burst detection error"]).
Proof.
  intros run. split.
  - destruct (demodulateBurst_shape config burst SPSRx RSSI timingOffset type)
      as (tr' & sv & t' & E).
    unfold run. rewrite E. cbn [outcome_of snd]. eauto.
  - intros tr rc amp toa E Hrc. unfold run.
    rewrite (demodulateBurst_abort _ _ SPSRx RSSI timingOffset _ _ _ _ _ E Hrc).
    cbn [trace_of outcome_of fst snd]. unfold report_detection_failure.
    split; [reflexivity|]. repeat split.
    + intros ->. now rewrite Z.eqb_refl.
    + intros -> Hne. apply Z.eqb_neq in Hne. rewrite Hne, Z.eqb_refl. cbn.
      now rewrite app_nil_r.
    + intros Hc Hn. apply Z.eqb_neq in Hc, Hn. now rewrite Hc, Hn.
Qed.

(** C3: on every call whose window 20 * rx_sps fits an unsigned,
    demodulateBurst first calls the energy estimator on the burst with
    window 20 * rx_sps and 0.0, then runs the cascade, and leaves
    20.0 * log10(rx_full_scale / avg) in RSSI, avg being what the estimator
    stored; the value does not depend on what the cascade returns. *)
Theorem RSSI_is_computed_before_detection (config : trx_config)
    (burst : signalVector) (SPSRx : Z) (RSSI timingOffset : double)
    (type : CorrType) :
  (20 * config.(rx_sps) < 2 ^ 32)%N ->
  let window := (20 * config.(rx_sps))%N in
  let avg := energyDetect burst window (float_lit 0) (float_lit 0) in
  exists tr' softBits timingOffset',
    demodulateBurst config burst SPSRx RSSI timingOffset type =
      (EvEnergyDetect burst window (float_lit 0) ::
         trace_of (detectBurst config burst complex_default float_indeterminate type)
         ++ tr',
       Returned (softBits,
                 double_mul (double_lit 20)
                   (log10 (double_div config.(rx_full_scale) (double_of_float avg))),
                 timingOffset')).
Proof.
  intros Hfit window avg.
  destruct (demodulateBurst_shape config burst SPSRx RSSI timingOffset type)
    as (tr' & sv & t' & E).
  exists tr', sv, t'. rewrite E.
  unfold energy_event, RSSI_of, avg, window, unsigned_mul.
  now rewrite N.mod_small.
Qed.

(** C4: when detectBurst returns a positive code, demodulateBurst
    dispatches on that code and not on the requested type: it calls the
    EDGE demodulator when the code is EDGE and the generic demodulator
    otherwise, and returns what that demodulator returns.  In particular,
    with EDGE requested, the EDGE correlator failing and the normal-burst
    correlator succeeding, the generic demodulator runs. *)
Theorem dispatch_follows_resolved_type (config : trx_config)
    (burst : signalVector) (SPSRx : Z) (RSSI timingOffset : double) :
  (forall type tr rc amp toa,
     detectBurst config burst complex_default float_indeterminate type
       = (tr, Returned (rc, amp, toa)) ->
     0 < rc ->
     let run := demodulateBurst config burst SPSRx RSSI timingOffset type in
     (rc = int_of_CorrType EDGE ->
      trace_of run =
        energy_event config burst :: tr ++
          [EvDemodEdgeBurst burst config.(rx_sps) amp toa]
      /\ exists r t, outcome_of run =
           Returned (demodEdgeBurst burst config.(rx_sps) amp toa, r, t))
     /\ (rc <> int_of_CorrType EDGE ->
         trace_of run =
           energy_event config burst :: tr ++
             [EvDemodulateBurst burst config.(rx_sps) amp toa]
         /\ exists r t, outcome_of run =
              Returned (sigProc_demodulateBurst burst config.(rx_sps) amp toa, r, t)))
  /\ (forall r1 r2 amp1 amp2 toa1 toa2,
        detectEdgeBurst burst config.(rtsc) (float_lit 5) config.(rx_sps)
          complex_default float_indeterminate config.(max_expected_delay_nb)
          = (r1, amp1, toa1) ->
        r1 <= 0 ->
        analyzeTrafficBurst burst config.(rtsc) (float_lit 5) config.(rx_sps)
          amp1 toa1 config.(max_expected_delay_nb) = (r2, amp2, toa2) ->
        0 < r2 ->
        let run := demodulateBurst config burst SPSRx RSSI timingOffset EDGE in
        trace_of run =
          [energy_event config burst;
           EvDetectEdgeBurst burst config.(rtsc) (float_lit 5) config.(rx_sps)
             config.(max_expected_delay_nb);
           EvAnalyzeTrafficBurst burst config.(rtsc) (float_lit 5) config.(rx_sps)
             config.(max_expected_delay_nb);
           EvDemodulateBurst burst config.(rx_sps) amp2 toa2]
        /\ exists r t, outcome_of run =
             Returned (sigProc_demodulateBurst burst config.(rx_sps) amp2 toa2, r, t)).
Proof.
  split.
  - intros type tr rc amp toa E Hrc run. unfold run.
    rewrite (demodulateBurst_proceed _ _ SPSRx RSSI timingOffset _ _ _ _ _ E Hrc).
    split.
    + intros Hedge. apply CorrType_of_int_EDGE in Hedge. rewrite Hedge.
      rewrite dispatch_EDGE. split; [reflexivity | cbn [outcome_of snd]; eauto].
    + intros Hother.
      rewrite dispatch_generic by (now rewrite CorrType_of_int_EDGE).
      split; [reflexivity | cbn [outcome_of snd]; eauto].
  - intros r1 r2 amp1 amp2 toa1 toa2 E1 Hr1 E2 Hr2 run. unfold run.
    pose proof (detectBurst_EDGE_miss _ _ _ _ _ _ _ _ _ _ E1 Hr1 E2) as E.
    rewrite (detectBurst_code_pos _ TSC Hr2) in E.
    rewrite (demodulateBurst_proceed _ _ SPSRx RSSI timingOffset _ _ _ _ _ E)
      by (cbn; lia).
    rewrite dispatch_generic by discriminate.
    split; [reflexivity | cbn [outcome_of snd]; eauto].
Qed.

(** C8: when detectBurst returns a positive code, demodulateBurst stores
    in timingOffset the time of arrival the cascade left in toa, divided by
    SPSRx, for every SPSRx (1 and 4 included). *)
Theorem timingOffset_is_toa_over_SPSRx (config : trx_config)
    (burst : signalVector) (SPSRx : Z) (RSSI timingOffset : double)
    (type : CorrType) (tr : list Event) (rc : Z) (amp : complex) (toa : float) :
  detectBurst config burst complex_default float_indeterminate type
    = (tr, Returned (rc, amp, toa)) ->
  0 < rc ->
  exists softBits RSSI',
    outcome_of (demodulateBurst config burst SPSRx RSSI timingOffset type) =
      Returned (softBits, RSSI',
                double_of_float (float_div toa (float_of_int SPSRx))).
Proof.
  intros E Hrc.
  rewrite (demodulateBurst_proceed _ _ SPSRx RSSI timingOffset _ _ _ _ _ E Hrc).
  destruct (CorrType_of_int rc) as [[]|];
    first [ rewrite dispatch_EDGE | rewrite dispatch_generic by discriminate ];
    cbn [outcome_of snd]; eauto.
Qed.

(** C10: every call of demodulateBurst stores the RSSI value in RSSI,
    whatever RSSI held before; when detectBurst returns a non-positive code
    the call returns NULL and timingOffset holds what it held on entry. *)
Theorem timingOffset_is_kept_on_failure (config : trx_config)
    (burst : signalVector) (SPSRx : Z) (RSSI timingOffset : double)
    (type : CorrType) :
  let run := demodulateBurst config burst SPSRx RSSI timingOffset type in
  (exists softBits timingOffset',
     outcome_of run = Returned (softBits, RSSI_of config burst, timingOffset'))
  /\ forall tr rc amp toa,
       detectBurst config burst complex_default float_indeterminate type
         = (tr, Returned (rc, amp, toa)) ->
       rc <= 0 ->
       outcome_of run = Returned (None, RSSI_of config burst, timingOffset).
Proof.
  intros run. split.
  - destruct (demodulateBurst_shape config burst SPSRx RSSI timingOffset type)
      as (tr' & sv & t' & E).
    unfold run. rewrite E. cbn [outcome_of snd]. eauto.
  - intros tr rc amp toa E Hrc. unfold run.
    now rewrite (demodulateBurst_abort _ _ SPSRx RSSI timingOffset _ _ _ _ _ E Hrc).
Qed.

(** *** Options and the harness *)

Lemma check_config_accepts (config : trx_config) :
  config_valid config -> check_config config = ([], Returned config).
Proof.
  intros (Hsps & Hrtsc & Hedge). unfold check_config.
  assert (E7 : (7 <? config.(rtsc))%N = false) by (apply N.ltb_ge; lia).
  rewrite E7.
  destruct Hsps as [E|E]; rewrite E.
  - destruct (edge config) eqn:Ee; [specialize (Hedge eq_refl); lia | reflexivity].
  - now destruct (edge config).
Qed.

Lemma check_config_rejects (config : trx_config) :
  ~ config_valid config ->
  exists msg, check_config config = ([msg; EvStdout help_text], Exited 0).
Proof.
  intros Hbad. unfold check_config, config_valid in *.
  destruct (N.eqb_spec config.(rx_sps) 1) as [E1|N1];
    destruct (N.eqb_spec config.(rx_sps) 4) as [E4|N4];
    try (exfalso; lia); cbn [negb andb].
  - (* one sample per symbol *)
    destruct (edge config) eqn:Ee; cbn [andb]; [eexists; reflexivity|].
    destruct (N.ltb_spec 7 config.(rtsc)); [eexists; reflexivity|].
    exfalso. apply Hbad. repeat split; first [lia | discriminate].
  - (* four samples per symbol *)
    rewrite andb_false_r.
    destruct (N.ltb_spec 7 config.(rtsc)); [eexists; reflexivity|].
    exfalso. apply Hbad. repeat split; lia.
  - eexists; reflexivity.
Qed.

Lemma classic_valid (config : trx_config) :
  config_valid config \/ ~ config_valid config.
Proof.
  unfold config_valid.
  destruct (N.eq_dec config.(rx_sps) 1), (N.eq_dec config.(rx_sps) 4),
    (N.le_gt_cases config.(rtsc) 7), (edge config);
    try (left; repeat split; (lia || (intros; lia) || (intros; discriminate)));
    right; intros (? & ? & He); try specialize (He eq_refl); lia.
Qed.

(** C5: the validator accepts a configuration exactly when it has 1 or 4
    samples per symbol, a training sequence in [0,7] and EDGE only at 4
    samples per symbol; otherwise it prints a message and the usage text
    and exits with status 0, and main then ends there, before it reads or
    processes any burst. *)
Theorem validator_accepts_exactly_valid_configs (config : trx_config) :
  (check_config config = ([], Returned config) <-> config_valid config)
  /\ (~ config_valid config ->
      exists msg, check_config config = ([msg; EvStdout help_text], Exited 0))
  /\ (forall results tr,
        getopt_loop results default_config = (tr, Returned config) ->
        ~ config_valid config ->
        exists msg, main results = (tr ++ [msg; EvStdout help_text], Exited 0)).
Proof.
  split; [split|split].
  - intros Hok. destruct (classic_valid config) as [Hv|Hv]; [exact Hv|].
    destruct (check_config_rejects config Hv) as (msg & E).
    rewrite E in Hok. discriminate.
  - apply check_config_accepts.
  - apply check_config_rejects.
  - intros results tr E Hbad.
    destruct (check_config_rejects config Hbad) as (msg & Ec).
    exists msg. unfold main, handle_options.
    now rewrite E, bind_returned, Ec.
Qed.

Lemma file_read_runs (name : string) (burst : signalVector) (nbytes : N) :
  file_read name burst nbytes =
    ([EvFileRead name nbytes],
     Returned {| sv_size := burst.(sv_size);
                 sv_data := ifstream_read name nbytes burst.(sv_data) |}).
Proof. reflexivity. Qed.

(** The burst [main] hands to [demodulateBurst]: 156 samples, filled from
    the first 1248 bytes of the file, whatever the configuration. *)
Lemma main_burst_shape (config : trx_config) :
  exists burst tr,
    main_burst config =
      (EvFileRead config.(filename) 1248 :: energy_event config burst :: tr,
       Returned 0)
    /\ sv_size burst = 156%N.
Proof.
  unfold main_burst. rewrite file_read_runs, bind_returned.
  cbn [signalVector_new sv_size sv_data].
  set (burst := {| sv_size := 156;
                   sv_data := ifstream_read config.(filename) (156 * 2 * sizeof_float)
                                (samples_alloc 156) |}).
  destruct (demodulateBurst_shape config burst (int_of_unsigned config.(rx_sps))
              double_indeterminate double_indeterminate config.(type))
    as (tr' & sv & t' & E).
  exists burst. eexists. split; [|reflexivity].
  rewrite E, bind_returned. reflexivity.
Qed.

(** C6, at 4 samples per symbol: main reads 1248 bytes, that is 312 floats,
    into a burst of 156 complex samples and hands that burst to
    demodulateBurst, whose energy window is 80 samples; 156 * SPS would be
    624 samples and 156 * SPS * 2 would be 1248 floats. *)
Theorem main_burst_ignores_samples_per_symbol (config : trx_config) :
  config.(rx_sps) = 4%N ->
  exists burst tr,
    main_burst config =
      (EvFileRead config.(filename) 1248
         :: EvEnergyDetect burst 80 (float_lit 0) :: tr,
       Returned 0)
    /\ sv_size burst = 156%N
    /\ sv_size burst <> (156 * config.(rx_sps))%N
    /\ (1248 / sizeof_float)%N = 312%N
    /\ (1248 / sizeof_float)%N <> (156 * config.(rx_sps) * 2)%N.
Proof.
  intros Hsps.
  destruct (main_burst_shape config) as (burst & tr & E & Hsize).
  exists burst, tr. rewrite E, Hsize, Hsps. unfold energy_event. rewrite Hsps.
  repeat split; try discriminate.
Qed.

End Properties.

(* ================================================================== *)
(** ** Further properties: the cascade, the options, the harness *)

Section MoreProperties.
Context `{Lib : SigProcLib}.

Lemma bind_assoc {A B C} (m : M A) (f : A -> M B) (g : B -> M C) :
  bind (bind m f) g = bind m (fun a => bind (f a) g).
Proof.
  destruct m as [tr [a| |]]; cbn; try reflexivity.
  destruct (f a) as [tr1 [b| |]]; cbn; try reflexivity.
  - destruct (g b) as [tr2 o]. now rewrite app_assoc.
Qed.

Lemma bind_silent {A B} (a : A) (k : A -> M B) : bind ([], Returned a) k = k a.
Proof. apply bind_ret. Qed.

Lemma float_val_of_int_zero (z : Z) : float_val_of_int z = 0 <-> z = 0.
Proof.
  rewrite <- (Z.sgn_null_iff (float_val_of_int z)), float_val_of_int_sgn.
  apply Z.sgn_null_iff.
Qed.

Lemma detectBurst_code_pos_inv (f : Z) (t : CorrType) :
  0 < detectBurst_code f t -> detectBurst_code f t = int_of_CorrType t /\ 0 < f.
Proof.
  unfold detectBurst_code, int_of_float_val.
  destruct (Z.gtb_spec f 0); [split; [reflexivity | lia] | lia].
Qed.

(** *** The detection cascade *)

(** X1: a positive code returned by detectBurst is the requested type when
    that is TSC, RACH or EDGE, or TSC after an EDGE request; it is never OFF
    or IDLE, so the cast to CorrType in demodulateBurst always names a
    burst type. *)
Theorem detectBurst_positive_code_is_burst_type (config : trx_config)
    (burst : signalVector) (amp amp' : complex) (toa toa' : float)
    (type : CorrType) (tr : list Event) (rc : Z) :
  SIGERR_NONE <= 0 ->
  detectBurst config burst amp toa type = (tr, Returned (rc, amp', toa')) ->
  0 < rc ->
  (rc = int_of_CorrType type /\ (type = TSC \/ type = RACH \/ type = EDGE))
  \/ (type = EDGE /\ rc = int_of_CorrType TSC).
Proof.
  intros Hneutral E Hrc. destruct type.
  - rewrite detectBurst_OFF in E. injection E as _ <- _ _. lia.
  - destruct (analyzeTrafficBurst burst config.(rtsc) (float_lit 5) config.(rx_sps)
                amp toa config.(max_expected_delay_nb)) as [[r a] t] eqn:Ec.
    rewrite (detectBurst_TSC _ _ _ _ _ _ _ Ec) in E. injection E as _ <- _ _.
    apply detectBurst_code_pos_inv in Hrc. left. intuition.
  - destruct (detectRACHBurst burst (float_lit 6) config.(rx_sps) amp toa
                config.(max_expected_delay_ab)) as [[r a] t] eqn:Ec.
    rewrite (detectBurst_RACH _ _ _ _ _ _ _ Ec) in E. injection E as _ <- _ _.
    apply detectBurst_code_pos_inv in Hrc. left. intuition.
  - destruct (detectEdgeBurst burst config.(rtsc) (float_lit 5) config.(rx_sps)
                amp toa config.(max_expected_delay_nb)) as [[r1 a1] t1] eqn:E1.
    destruct (Z.lt_ge_cases 0 r1) as [Hr|Hr].
    + rewrite (detectBurst_EDGE_hit _ _ _ _ _ _ _ E1 Hr) in E.
      injection E as _ <- _ _. left. intuition.
    + destruct (analyzeTrafficBurst burst config.(rtsc) (float_lit 5)
                  config.(rx_sps) a1 t1 config.(max_expected_delay_nb))
        as [[r2 a2] t2] eqn:E2.
      rewrite (detectBurst_EDGE_miss _ _ _ _ _ _ _ _ _ _ E1 Hr E2) in E.
      injection E as _ <- _ _.
      apply detectBurst_code_pos_inv in Hrc. right. intuition.
  - rewrite detectBurst_IDLE in E. injection E as _ <- _ _.
    apply detectBurst_code_pos_inv in Hrc. destruct Hrc as [_ Hpos].
    apply -> float_val_of_int_pos in Hpos. lia.
Qed.

(** X2: when EDGE is requested and the EDGE correlator returns a
    non-positive code, that code is dropped: detectBurst goes on exactly as
    a TSC request started from the amp and toa the EDGE correlator left, so
    an EDGE clipping or error code never reaches the caller. *)
Theorem detectBurst_EDGE_miss_is_TSC_request (config : trx_config)
    (burst : signalVector) (amp amp1 : complex) (toa toa1 : float) (r1 : Z) :
  detectEdgeBurst burst config.(rtsc) (float_lit 5) config.(rx_sps) amp toa
    config.(max_expected_delay_nb) = (r1, amp1, toa1) ->
  r1 <= 0 ->
  detectBurst config burst amp toa EDGE =
    (EvDetectEdgeBurst burst config.(rtsc) (float_lit 5) config.(rx_sps)
       config.(max_expected_delay_nb)
       :: trace_of (detectBurst config burst amp1 toa1 TSC),
     outcome_of (detectBurst config burst amp1 toa1 TSC)).
Proof.
  intros E1 Hr1.
  destruct (analyzeTrafficBurst burst config.(rtsc) (float_lit 5) config.(rx_sps)
              amp1 toa1 config.(max_expected_delay_nb)) as [[r2 a2] t2] eqn:E2.
  rewrite (detectBurst_EDGE_miss _ _ _ _ _ _ _ _ _ _ E1 Hr1 E2).
  now rewrite (detectBurst_TSC _ _ _ _ _ _ _ E2).
Qed.

Lemma detectBurst_code_facts (r : Z) (t : CorrType) :
  let rc := detectBurst_code (float_val_of_int r) t in
  0 < int_of_CorrType t ->
  (0 < rc <-> 0 < r) /\ (rc = 0 <-> r = 0)
  /\ (0 < r -> rc = int_of_CorrType t)
  /\ (r <= 0 -> Z.abs r < 2 ^ 24 -> rc = r).
Proof.
  intros rc Ht. subst rc.
  destruct (Z.lt_ge_cases 0 r) as [Hr|Hr].
  - rewrite (detectBurst_code_pos _ t Hr). repeat split; intros; lia.
  - destruct (detectBurst_code_nonpos r t Hr) as [-> Hle].
    pose proof (float_val_of_int_zero r) as Hz.
    repeat split; intros; try lia; try tauto.
    now apply float_val_of_int_small.
Qed.

(** X3: with RACH requested, detectBurst makes one call, to the RACH
    correlator with threshold 6.0 and the access-burst delay bound, and hands
    back its out-parameters; the code it returns is RACH when the
    correlator's is positive, is 0 exactly when the correlator's is 0, keeps
    its sign, and equals it when it is non-positive and below 2^24 in
    magnitude. *)
Theorem detectBurst_RACH_passes_correlator_code (config : trx_config)
    (burst : signalVector) (amp amp' : complex) (toa toa' : float) (r : Z) :
  detectRACHBurst burst (float_lit 6) config.(rx_sps) amp toa
    config.(max_expected_delay_ab) = (r, amp', toa') ->
  exists rc,
    detectBurst config burst amp toa RACH =
      ([EvDetectRACHBurst burst (float_lit 6) config.(rx_sps)
          config.(max_expected_delay_ab)],
       Returned (rc, amp', toa'))
    /\ (0 < rc <-> 0 < r)
    /\ (rc = 0 <-> r = 0)
    /\ (0 < r -> rc = int_of_CorrType RACH)
    /\ (r <= 0 -> Z.abs r < 2 ^ 24 -> rc = r).
Proof.
  intros Ec. rewrite (detectBurst_RACH _ _ _ _ _ _ _ Ec). eexists.
  split; [reflexivity|]. apply detectBurst_code_facts. cbn. lia.
Qed.

(** X4: with TSC requested, detectBurst makes one call, to the normal-burst
    correlator with threshold 5.0 and the normal-burst delay bound, and hands
    back its out-parameters; the code it returns is TSC when the
    correlator's is positive, is 0 exactly when the correlator's is 0, keeps
    its sign, and equals it when it is non-positive and below 2^24 in
    magnitude. *)
Theorem detectBurst_TSC_passes_correlator_code (config : trx_config)
    (burst : signalVector) (amp amp' : complex) (toa toa' : float) (r : Z) :
  analyzeTrafficBurst burst config.(rtsc) (float_lit 5) config.(rx_sps) amp toa
    config.(max_expected_delay_nb) = (r, amp', toa') ->
  exists rc,
    detectBurst config burst amp toa TSC =
      ([EvAnalyzeTrafficBurst burst config.(rtsc) (float_lit 5) config.(rx_sps)
          config.(max_expected_delay_nb)],
       Returned (rc, amp', toa'))
    /\ (0 < rc <-> 0 < r)
    /\ (rc = 0 <-> r = 0)
    /\ (0 < r -> rc = int_of_CorrType TSC)
    /\ (r <= 0 -> Z.abs r < 2 ^ 24 -> rc = r).
Proof.
  intros Ec. rewrite (detectBurst_TSC _ _ _ _ _ _ _ Ec). eexists.
  split; [reflexivity|]. apply detectBurst_code_facts. cbn. lia.
Qed.

(** X5: detectBurst reads no field of the configuration besides rx_sps,
    rtsc and the two delay bounds, and a RACH request reads only rx_sps and
    max_expected_delay_ab. *)
Theorem detectBurst_reads_only_its_fields (c1 c2 : trx_config)
    (burst : signalVector) (amp : complex) (toa : float) (type : CorrType) :
  c1.(rx_sps) = c2.(rx_sps) ->
  c1.(max_expected_delay_ab) = c2.(max_expected_delay_ab) ->
  (type <> RACH ->
   c1.(rtsc) = c2.(rtsc)
   /\ c1.(max_expected_delay_nb) = c2.(max_expected_delay_nb)) ->
  detectBurst c1 burst amp toa type = detectBurst c2 burst amp toa type.
Proof.
  intros Hsps Hab Hrest.
  destruct c1, c2; cbn in *; subst.
  destruct type; try reflexivity;
    destruct Hrest as [-> ->]; try discriminate; reflexivity.
Qed.

(** *** The demodulation orchestrator *)

Lemma report_has_no_call (rc : Z) :
  existsb is_EDGE_demodulation (trace_of (report_detection_failure rc)) = false
  /\ existsb is_EDGE_or_RACH_call (trace_of (report_detection_failure rc)) = false.
Proof.
  unfold report_detection_failure.
  destruct (rc =? - SIGERR_CLIP); [now split|].
  destruct (rc =? SIGERR_NONE); now split.
Qed.

(** What a call of [detectBurst] can have done, by requested type. *)
Lemma detectBurst_inv (config : trx_config) (burst : signalVector)
    (amp amp' : complex) (toa toa' : float) (type : CorrType)
    (tr : list Event) (rc : Z) :
  detectBurst config burst amp toa type = (tr, Returned (rc, amp', toa')) ->
  existsb is_EDGE_demodulation tr = false
  /\ (type = TSC -> existsb is_EDGE_or_RACH_call tr = false /\ rc <= 1)
  /\ (rc = int_of_CorrType EDGE <->
      type = EDGE /\
      0 < fst (fst (detectEdgeBurst burst config.(rtsc) (float_lit 5) config.(rx_sps)
                      amp toa config.(max_expected_delay_nb)))).
Proof.
  assert (Hbound : forall r t, detectBurst_code (float_val_of_int r) t
                               <= int_of_CorrType t \/
                               detectBurst_code (float_val_of_int r) t <= 0).
  { intros r t. destruct (Z.lt_ge_cases 0 r) as [Hr|Hr].
    - left. rewrite (detectBurst_code_pos _ _ Hr). lia.
    - right. destruct (detectBurst_code_nonpos r t Hr) as [-> Hle]. exact Hle. }
  intros E. destruct type.
  - rewrite detectBurst_OFF in E. injection E as <- <- _ _.
    cbn [int_of_CorrType].
    split; [reflexivity|]. split; [discriminate|].
    split; [lia | intros [Hty _]; discriminate].
  - destruct (analyzeTrafficBurst burst config.(rtsc) (float_lit 5) config.(rx_sps)
                amp toa config.(max_expected_delay_nb)) as [[r a] t] eqn:Ec.
    rewrite (detectBurst_TSC _ _ _ _ _ _ _ Ec) in E. injection E as <- <- _ _.
    pose proof (Hbound r TSC) as Hle. cbn [int_of_CorrType] in *.
    split; [reflexivity|]. split; [intros _; split; [reflexivity | lia]|].
    split; [lia | intros [Hty _]; discriminate].
  - destruct (detectRACHBurst burst (float_lit 6) config.(rx_sps) amp toa
                config.(max_expected_delay_ab)) as [[r a] t] eqn:Ec.
    rewrite (detectBurst_RACH _ _ _ _ _ _ _ Ec) in E. injection E as <- <- _ _.
    pose proof (Hbound r RACH) as Hle. cbn [int_of_CorrType] in *.
    split; [reflexivity|]. split; [discriminate|].
    split; [lia | intros [Hty _]; discriminate].
  - destruct (detectEdgeBurst burst config.(rtsc) (float_lit 5) config.(rx_sps)
                amp toa config.(max_expected_delay_nb)) as [[r1 a1] t1] eqn:E1.
    cbn [fst].
    destruct (Z.lt_ge_cases 0 r1) as [Hr|Hr].
    + rewrite (detectBurst_EDGE_hit _ _ _ _ _ _ _ E1 Hr) in E.
      injection E as <- <- _ _.
      split; [reflexivity|]. split; [discriminate|].
      split; [intros _; now split | reflexivity].
    + destruct (analyzeTrafficBurst burst config.(rtsc) (float_lit 5)
                  config.(rx_sps) a1 t1 config.(max_expected_delay_nb))
        as [[r2 a2] t2] eqn:E2.
      rewrite (detectBurst_EDGE_miss _ _ _ _ _ _ _ _ _ _ E1 Hr E2) in E.
      injection E as <- <- _ _.
      pose proof (Hbound r2 TSC) as Hle. cbn [int_of_CorrType] in *.
      split; [reflexivity|]. split; [discriminate|].
      split; [lia | intros [_ Hpos]; lia].
  - rewrite detectBurst_IDLE in E. injection E as <- <- _ _.
    assert (Hne : detectBurst_code (float_val_of_int SIGERR_NONE) IDLE <> 3).
    { unfold detectBurst_code, int_of_float_val.
      destruct (Z.gtb_spec (float_val_of_int SIGERR_NONE) 0); cbn; lia. }
    cbn [int_of_CorrType].
    split; [reflexivity|]. split; [discriminate|].
    split; [lia | intros [Hty _]; discriminate].
Qed.

(** X6: demodulateBurst calls the EDGE demodulator exactly when EDGE is
    requested and the EDGE correlator returns a positive code; every other
    burst, EDGE requests resolved as TSC included, goes to the generic
    demodulator or to none. *)
Theorem EDGE_demodulator_runs_iff_EDGE_detected (config : trx_config)
    (burst : signalVector) (SPSRx : Z) (RSSI timingOffset : double)
    (type : CorrType) :
  existsb is_EDGE_demodulation
    (trace_of (demodulateBurst config burst SPSRx RSSI timingOffset type)) = true
  <-> type = EDGE /\
      0 < fst (fst (detectEdgeBurst burst config.(rtsc) (float_lit 5) config.(rx_sps)
                      complex_default float_indeterminate
                      config.(max_expected_delay_nb))).
Proof.
  destruct (detectBurst_returns config burst complex_default float_indeterminate type)
    as (tr & rc & amp & toa & E).
  destruct (detectBurst_inv _ _ _ _ _ _ _ _ _ E) as (Htr & _ & Hedge).
  rewrite <- Hedge. clear Hedge.
  destruct (Z.lt_ge_cases 0 rc) as [Hrc|Hrc].
  - rewrite (demodulateBurst_proceed _ _ SPSRx RSSI timingOffset _ _ _ _ _ E Hrc).
    cbn [trace_of fst existsb is_EDGE_demodulation energy_event orb].
    rewrite existsb_app, Htr. cbn [orb].
    destruct (CorrType_of_int rc) as [[]|] eqn:Ety;
      first [ rewrite dispatch_EDGE | rewrite dispatch_generic by discriminate ];
      cbn; split; intros Hx; try discriminate; try reflexivity;
      try (now apply CorrType_of_int_EDGE);
      subst rc; discriminate.
  - rewrite (demodulateBurst_abort _ _ SPSRx RSSI timingOffset _ _ _ _ _ E Hrc).
    cbn [trace_of fst existsb is_EDGE_demodulation energy_event orb].
    rewrite existsb_app, Htr.
    destruct (report_has_no_call rc) as [Hrep _].
    rewrite Hrep. cbn.
    split; [discriminate | intros ->; cbn in Hrc; lia].
Qed.

(** X7: demodulateBurst reads the configuration through rx_sps, rtsc, the
    two delay bounds and rx_full_scale only: the edge flag, the type field,
    the log level and the file name have no effect on the call. *)
Theorem demodulateBurst_reads_only_detection_inputs (c1 c2 : trx_config)
    (burst : signalVector) (SPSRx : Z) (RSSI timingOffset : double)
    (type : CorrType) :
  same_detection_inputs c1 c2 ->
  demodulateBurst c1 burst SPSRx RSSI timingOffset type =
  demodulateBurst c2 burst SPSRx RSSI timingOffset type.
Proof.
  intros (Hsps & Htsc & Hnb & Hab & Hfs).
  destruct c1, c2; cbn in *; subst. reflexivity.
Qed.

(** X8: with IDLE requested, a neutral code that is non-positive, exactly
    representable and distinct from the clipping code, demodulateBurst calls
    the energy estimator and nothing else: no correlator, no demodulator, no
    message; it returns NULL with RSSI set and timingOffset kept. *)
Theorem demodulateBurst_IDLE_only_measures_energy (config : trx_config)
    (burst : signalVector) (SPSRx : Z) (RSSI timingOffset : double) :
  SIGERR_NONE <= 0 ->
  Z.abs SIGERR_NONE < 2 ^ 24 ->
  SIGERR_NONE <> - SIGERR_CLIP ->
  demodulateBurst config burst SPSRx RSSI timingOffset IDLE =
    ([energy_event config burst],
     Returned (None, RSSI_of config burst, timingOffset)).
Proof.
  intros Hneutral Hexact Hclip.
  pose proof (detectBurst_IDLE config burst complex_default float_indeterminate) as E.
  destruct (detectBurst_code_nonpos SIGERR_NONE IDLE Hneutral) as [Hcode _].
  rewrite Hcode, (float_val_of_int_small _ Hexact) in E.
  rewrite (demodulateBurst_abort _ _ SPSRx RSSI timingOffset _ _ _ _ _ E Hneutral).
  unfold report_detection_failure.
  apply Z.eqb_neq in Hclip. now rewrite Hclip, Z.eqb_refl.
Qed.

(** X9: with RACH requested and a positive code from the RACH correlator,
    demodulateBurst makes three calls (energy estimator, RACH correlator
    with threshold 6.0, generic demodulator with the correlator's amp and
    toa), returns the demodulator's result and stores toa / SPSRx in
    timingOffset. *)
Theorem demodulateBurst_RACH_detected (config : trx_config)
    (burst : signalVector) (SPSRx : Z) (RSSI timingOffset : double)
    (r : Z) (amp : complex) (toa : float) :
  detectRACHBurst burst (float_lit 6) config.(rx_sps) complex_default
    float_indeterminate config.(max_expected_delay_ab) = (r, amp, toa) ->
  0 < r ->
  demodulateBurst config burst SPSRx RSSI timingOffset RACH =
    ([energy_event config burst;
      EvDetectRACHBurst burst (float_lit 6) config.(rx_sps)
        config.(max_expected_delay_ab);
      EvDemodulateBurst burst config.(rx_sps) amp toa],
     Returned (sigProc_demodulateBurst burst config.(rx_sps) amp toa,
               RSSI_of config burst,
               double_of_float (float_div toa (float_of_int SPSRx)))).
Proof.
  intros Ec Hr.
  pose proof (detectBurst_RACH _ _ _ _ _ _ _ Ec) as E.
  rewrite (detectBurst_code_pos _ RACH Hr) in E.
  rewrite (demodulateBurst_proceed _ _ SPSRx RSSI timingOffset _ _ _ _ _ E)
    by (cbn; lia).
  now rewrite dispatch_generic by discriminate.
Qed.

(** X10: with EDGE requested and a positive code from the EDGE correlator,
    the normal-burst correlator is not called: demodulateBurst makes three
    calls (energy estimator, EDGE correlator with threshold 5.0, EDGE
    demodulator with the correlator's amp and toa), returns the
    demodulator's result and stores toa / SPSRx in timingOffset. *)
Theorem demodulateBurst_EDGE_detected (config : trx_config)
    (burst : signalVector) (SPSRx : Z) (RSSI timingOffset : double)
    (r : Z) (amp : complex) (toa : float) :
  detectEdgeBurst burst config.(rtsc) (float_lit 5) config.(rx_sps) complex_default
    float_indeterminate config.(max_expected_delay_nb) = (r, amp, toa) ->
  0 < r ->
  demodulateBurst config burst SPSRx RSSI timingOffset EDGE =
    ([energy_event config burst;
      EvDetectEdgeBurst burst config.(rtsc) (float_lit 5) config.(rx_sps)
        config.(max_expected_delay_nb);
      EvDemodEdgeBurst burst config.(rx_sps) amp toa],
     Returned (demodEdgeBurst burst config.(rx_sps) amp toa,
               RSSI_of config burst,
               double_of_float (float_div toa (float_of_int SPSRx)))).
Proof.
  intros Ec Hr.
  pose proof (detectBurst_EDGE_hit _ _ _ _ _ _ _ Ec Hr) as E.
  rewrite (demodulateBurst_proceed _ _ SPSRx RSSI timingOffset _ _ _ _ _ E)
    by (cbn; lia).
  now rewrite dispatch_EDGE.
Qed.

(** *** The option loop *)

Lemma sets_field_cases (c : ascii) :
  sets_field c = true ->
  c = "l"%char \/ c = "s"%char \/ c = "e"%char \/ c = "t"%char \/ c = "f"%char.
Proof.
  destruct c as [[] [] [] [] [] [] [] []]; cbn; intros Hc;
    try discriminate; tauto.
Qed.

Lemma getopt_loop_default (c : ascii) (optarg : option string)
    (results : list (ascii * option string)) (config : trx_config) :
  sets_field c = false ->
  getopt_loop ((c, optarg) :: results) config = ([EvStdout help_text], Exited 0).
Proof.
  destruct c as [[] [] [] [] [] [] [] []]; cbn; intros Hc;
    try discriminate; reflexivity.
Qed.

Lemma reads_optarg_null (c : ascii)
    (results : list (ascii * option string)) (config : trx_config) :
  reads_optarg c = true ->
  getopt_loop ((c, None) :: results) config = ([], Undefined).
Proof.
  destruct c as [[] [] [] [] [] [] [] []]; cbn; intros Hc;
    try discriminate; reflexivity.
Qed.

Lemma getopt_loop_concat (r1 r2 : list (ascii * option string))
    (config : trx_config) :
  getopt_loop (r1 ++ r2) config = bind (getopt_loop r1 config) (getopt_loop r2).
Proof.
  revert config. induction r1 as [|[c optarg] r1 IH]; intros config.
  - cbn [app getopt_loop]. now rewrite bind_ret.
  - destruct (sets_field c) eqn:Hc.
    + destruct (sets_field_cases c Hc) as [->|[->|[->|[->| ->]]]];
        cbn [app getopt_loop];
        try (destruct optarg as [v|]; cbn [c_str];
             [rewrite !bind_ret; apply IH | reflexivity]).
      apply IH.
    + rewrite <- app_comm_cons, !getopt_loop_default by exact Hc. reflexivity.
Qed.

(** X11: the option loop composes: running it over two lists of getopt
    results in a row is running it over the first list and, if that returns,
    over the second from the configuration reached (so a later option
    overrides an earlier one); if the first list makes the loop exit, the
    second is never looked at. *)
Theorem getopt_loop_app (r1 r2 : list (ascii * option string))
    (config : trx_config) :
  getopt_loop (r1 ++ r2) config = bind (getopt_loop r1 config) (getopt_loop r2)
  /\ (forall config1, getopt_loop r1 config = ([], Returned config1) ->
      getopt_loop (r1 ++ r2) config = getopt_loop r2 config1)
  /\ (forall tr status, getopt_loop r1 config = (tr, Exited status) ->
      getopt_loop (r1 ++ r2) config = (tr, Exited status)).
Proof.
  pose proof (getopt_loop_concat r1 r2 config) as Happ.
  split; [exact Happ|]. split.
  - intros config1 E1. now rewrite Happ, E1, bind_silent.
  - intros tr status E1. now rewrite Happ, E1.
Qed.

(** How the loop can end: silently with a configuration that differs from
    the initial one in option-assigned fields only, with the help text and
    exit status 0, or in undefined behaviour. *)
Lemma getopt_loop_outcomes (results : list (ascii * option string))
    (config : trx_config) :
  (exists config', getopt_loop results config = ([], Returned config')
                   /\ same_fixed_fields config config')
  \/ getopt_loop results config = ([EvStdout help_text], Exited 0)
  \/ getopt_loop results config = ([], Undefined).
Proof.
  revert config. induction results as [|[c optarg] results IH]; intros config.
  - left. exists config. split; [reflexivity | now repeat split].
  - destruct (sets_field c) eqn:Hc.
    + assert (Hstep : forall config1, same_fixed_fields config config1 ->
                (exists config', getopt_loop results config1 = ([], Returned config')
                                 /\ same_fixed_fields config config')
                \/ getopt_loop results config1 = ([EvStdout help_text], Exited 0)
                \/ getopt_loop results config1 = ([], Undefined)).
      { intros config1 (H1 & H2 & H3 & H4).
        destruct (IH config1) as [(config' & E & (G1 & G2 & G3 & G4))|Hrest].
        - left. exists config'. split; [exact E|].
          repeat split; congruence.
        - now right. }
      destruct (sets_field_cases c Hc) as [->|[->|[->|[->| ->]]]];
        cbn [getopt_loop];
        try (destruct optarg as [v|]; cbn [c_str];
             [rewrite bind_ret; apply Hstep; now repeat split
             | right; right; reflexivity]).
      apply Hstep. now repeat split.
    + right. left. now apply getopt_loop_default.
Qed.

(** X12: whatever getopt reports, the option loop prints nothing unless it
    exits, exits only with the help text and status 0, and never changes the
    requested type, the two delay bounds or the full-scale value. *)
Theorem getopt_loop_is_silent_and_keeps_fixed_fields
    (results : list (ascii * option string)) (config : trx_config) :
  (forall tr config', getopt_loop results config = (tr, Returned config') ->
     tr = [] /\ same_fixed_fields config config')
  /\ (forall tr status, getopt_loop results config = (tr, Exited status) ->
        tr = [EvStdout help_text] /\ status = 0)
  /\ (forall tr, getopt_loop results config = (tr, Undefined) -> tr = []).
Proof.
  destruct (getopt_loop_outcomes results config)
    as [(config1 & E & Hsame)|[E|E]]; rewrite E.
  - split; [|split].
    + intros tr config' Heq. injection Heq as <- <-. now split.
    + intros tr status Heq. discriminate.
    + intros tr Heq. discriminate.
  - split; [|split].
    + intros tr config' Heq. discriminate.
    + intros tr status Heq. injection Heq as <- <-. now split.
    + intros tr Heq. discriminate.
  - split; [|split].
    + intros tr config' Heq. discriminate.
    + intros tr status Heq. discriminate.
    + intros tr Heq. now injection Heq as <-.
Qed.

(** X13: an option character other than l, s, e, t and f (h, or the '?' of
    an unknown option) ends the program with the help text and status 0 as
    soon as the loop reaches it: the options after it and the three checks
    are skipped, so no validation message is printed even for an invalid
    configuration. *)
Theorem help_option_preempts_validation (before after : list (ascii * option string))
    (c : ascii) (optarg : option string) (config : trx_config) :
  sets_field c = false ->
  getopt_loop before default_config = ([], Returned config) ->
  main (before ++ (c, optarg) :: after) = ([EvStdout help_text], Exited 0).
Proof.
  intros Hc Hbefore. unfold main, handle_options.
  rewrite getopt_loop_concat, Hbefore, bind_silent.
  now rewrite getopt_loop_default by exact Hc.
Qed.

(** X14: when the loop reaches an l, s, t or f option whose optarg is the
    null pointer, the run is undefined from there on: nothing is printed, no
    check is made and no burst is read. *)
Theorem null_optarg_is_undefined (before after : list (ascii * option string))
    (c : ascii) (config : trx_config) :
  reads_optarg c = true ->
  getopt_loop before default_config = ([], Returned config) ->
  main (before ++ (c, None) :: after) = ([], Undefined).
Proof.
  intros Hc Hbefore. unfold main, handle_options.
  rewrite getopt_loop_concat, Hbefore, bind_silent.
  now rewrite reads_optarg_null by exact Hc.
Qed.

(** *** The checks and the harness *)

Lemma check_config_outcomes (config : trx_config) :
  (config_valid config /\ check_config config = ([], Returned config))
  \/ (~ config_valid config /\
      exists msg, check_config config = ([msg; EvStdout help_text], Exited 0)
                  /\ is_EDGE_or_RACH_call msg = false).
Proof.
  destruct (classic_valid config) as [Hv|Hv].
  - left. split; [exact Hv | now apply check_config_accepts].
  - right. split; [exact Hv|].
    unfold check_config, config_valid in *.
    destruct (N.eqb_spec config.(rx_sps) 1) as [E1|N1];
      destruct (N.eqb_spec config.(rx_sps) 4) as [E4|N4];
      try (exfalso; lia); cbn [negb andb].
    + destruct (edge config) eqn:Ee; cbn [andb];
        [eexists; split; reflexivity|].
      destruct (N.ltb_spec 7 config.(rtsc)); [eexists; split; reflexivity|].
      exfalso. apply Hv. repeat split; first [lia | discriminate].
    + rewrite andb_false_r.
      destruct (N.ltb_spec 7 config.(rtsc)); [eexists; split; reflexivity|].
      exfalso. apply Hv. repeat split; lia.
    + eexists; split; reflexivity.
Qed.

Lemma handle_options_inv (results : list (ascii * option string))
    (tr : list Event) (config : trx_config) :
  handle_options results = (tr, Returned config) ->
  tr = []
  /\ config_valid config
  /\ config.(type) = TSC
  /\ config.(max_expected_delay_nb) = 30%N
  /\ config.(max_expected_delay_ab) = 30%N
  /\ config.(rx_full_scale) = double_of_int SHRT_MAX.
Proof.
  unfold handle_options.
  destruct (getopt_loop_outcomes results default_config)
    as [(config1 & E & (Hty & Hnb & Hab & Hfs))|[E|E]]; rewrite E;
    [|discriminate|discriminate].
  rewrite bind_silent.
  destruct (check_config_outcomes config1) as [[Hv Ec]|[_ (msg & Ec & _)]];
    rewrite Ec; [|discriminate].
  intros Heq. injection Heq as <- <-.
  cbn in Hty, Hnb, Hab, Hfs.
  split; [reflexivity|]. split; [exact Hv|].
  repeat split; symmetry; assumption.
Qed.

(** X15: a configuration handle_options returns passed the three checks, was
    produced without printing anything, and requests type TSC with both
    delay bounds 30 and full scale SHRT_MAX: no command line selects another
    burst type, not even one with -e. *)
Theorem handle_options_result (results : list (ascii * option string))
    (tr : list Event) (config : trx_config) :
  handle_options results = (tr, Returned config) ->
  tr = []
  /\ ((config.(rx_sps) = 1 \/ config.(rx_sps) = 4)%N
      /\ (config.(rtsc) <= 7)%N
      /\ (config.(edge) = true -> config.(rx_sps) = 4%N))
  /\ config.(type) = TSC
  /\ config.(max_expected_delay_nb) = 30%N
  /\ config.(max_expected_delay_ab) = 30%N
  /\ config.(rx_full_scale) = double_of_int SHRT_MAX.
Proof.
  intros E.
  destruct (handle_options_inv _ _ _ E)
    as (Htr & (Hsps & Hrtsc & Hedge) & Hty & Hnb & Hab & Hfs).
  split; [exact Htr|]. split; [|now repeat split].
  split; [exact Hsps|]. split; [lia | exact Hedge].
Qed.

Lemma demodulateBurst_TSC_calls (config : trx_config) (burst : signalVector)
    (SPSRx : Z) (RSSI timingOffset : double) :
  existsb is_EDGE_or_RACH_call
    (trace_of (demodulateBurst config burst SPSRx RSSI timingOffset TSC)) = false.
Proof.
  destruct (detectBurst_returns config burst complex_default float_indeterminate TSC)
    as (tr & rc & amp & toa & E).
  destruct (detectBurst_inv _ _ _ _ _ _ _ _ _ E) as (_ & Htsc & _).
  destruct (Htsc eq_refl) as [Htr Hle].
  destruct (Z.lt_ge_cases 0 rc) as [Hrc|Hrc].
  - rewrite (demodulateBurst_proceed _ _ SPSRx RSSI timingOffset _ _ _ _ _ E Hrc).
    assert (rc = 1) as -> by lia.
    rewrite dispatch_generic by discriminate.
    cbn [trace_of fst existsb is_EDGE_or_RACH_call energy_event orb].
    rewrite existsb_app, Htr. reflexivity.
  - rewrite (demodulateBurst_abort _ _ SPSRx RSSI timingOffset _ _ _ _ _ E Hrc).
    cbn [trace_of fst existsb is_EDGE_or_RACH_call energy_event orb].
    rewrite existsb_app, Htr.
    destruct (report_has_no_call rc) as [_ Hrep]. now rewrite Hrep.
Qed.

(** How [main] runs once [handle_options] has returned. *)
Lemma main_after_options (results : list (ascii * option string))
    (config : trx_config) :
  handle_options results = ([], Returned config) ->
  let burst := {| sv_size := 156;
                  sv_data := ifstream_read config.(filename) 1248
                               (samples_alloc 156) |} in
  main results =
    (EvPrintConfig config :: EvLogInit "transceiver" config.(log_level)
       :: EvFileRead config.(filename) 1248
       :: trace_of (demodulateBurst config burst (int_of_unsigned config.(rx_sps))
                      double_indeterminate double_indeterminate config.(type)),
     Returned 0).
Proof.
  intros E burst. unfold main. rewrite E, bind_silent.
  unfold print_config. rewrite bind_emit, bind_emit.
  unfold main_burst. rewrite file_read_runs, bind_returned.
  cbn [signalVector_new sv_size sv_data trace_of outcome_of fst snd app].
  change (156 * 2 * sizeof_float)%N with 1248%N. fold burst.
  destruct (demodulateBurst_shape config burst (int_of_unsigned config.(rx_sps))
              double_indeterminate double_indeterminate config.(type))
    as (tr' & sv & t' & Ed).
  destruct (demodulateBurst config burst (int_of_unsigned config.(rx_sps))
              double_indeterminate double_indeterminate config.(type))
    as [trd o].
  injection Ed as _ ->. cbn. now rewrite app_nil_r.
Qed.


(** X17: whatever the command line, main ends with status 0: it returns 0,
    or exits with 0 from the option handling (the outcome of the detection
    never shows in the exit status), unless a null optarg made the run
    undefined. *)
Theorem main_status_is_always_zero (results : list (ascii * option string)) :
  outcome_of (main results) = Returned 0
  \/ outcome_of (main results) = Exited 0
  \/ outcome_of (main results) = Undefined.
Proof.
  destruct (handle_options results) as [tr [config| status |]] eqn:E.
  - destruct (handle_options_inv _ _ _ E) as (-> & _).
    pose proof (main_after_options _ _ E) as Hmain. cbv zeta in Hmain.
    rewrite Hmain. now left.
  - right. left. unfold main. rewrite E. cbn.
    unfold handle_options in E.
    destruct (getopt_loop_outcomes results default_config)
      as [(config1 & Eg & _)|[Eg|Eg]]; rewrite Eg in E.
    + rewrite bind_silent in E.
      destruct (check_config_outcomes config1) as [[_ Ec]|[_ (msg & Ec & _)]];
        rewrite Ec in E; [discriminate|].
      now injection E as _ <-.
    + cbn in E. now injection E as _ <-.
    + discriminate.
  - right. right. unfold main. now rewrite E.
Qed.

(** X18: whatever the command line, -e included, main never calls the EDGE
    correlator, the RACH correlator or the EDGE demodulator. *)
Theorem main_never_uses_EDGE_or_RACH (results : list (ascii * option string)) :
  existsb is_EDGE_or_RACH_call (trace_of (main results)) = false.
Proof.
  destruct (handle_options results) as [tr [config| status |]] eqn:E.
  - destruct (handle_options_inv _ _ _ E) as (-> & _ & Hty & _).
    pose proof (main_after_options _ _ E) as Hmain. cbv zeta in Hmain.
    rewrite Hmain, Hty. cbn [trace_of fst existsb is_EDGE_or_RACH_call orb].
    apply demodulateBurst_TSC_calls.
  - unfold main. rewrite E. cbn [bind trace_of fst].
    unfold handle_options in E.
    destruct (getopt_loop_outcomes results default_config)
      as [(config1 & Eg & _)|[Eg|Eg]]; rewrite Eg in E.
    + rewrite bind_silent in E.
      destruct (check_config_outcomes config1) as [[_ Ec]|[_ (msg & Ec & Hmsg)]];
        rewrite Ec in E; [discriminate|].
      injection E as <- _. cbn. now rewrite Hmsg.
    + cbn in E. now injection E as <- _.
    + discriminate.
  - unfold main. rewrite E. cbn [bind trace_of fst].
    unfold handle_options in E.
    destruct (getopt_loop_outcomes results default_config)
      as [(config1 & Eg & _)|[Eg|Eg]]; rewrite Eg in E.
    + rewrite bind_silent in E.
      destruct (check_config_outcomes config1) as [[_ Ec]|[_ (msg & Ec & _)]];
        rewrite Ec in E; discriminate.
    + discriminate.
    + cbn in E. now injection E as <-.
Qed.

(** *** Numeric option arguments *)

Lemma unsigned_of_int_value (z : Z) :
  INT_MIN <= z <= INT_MAX ->
  Z.of_N (unsigned_of_int z) = if z <? 0 then z + UINT_MODULUS else z.
Proof.
  unfold INT_MIN, INT_MAX, unsigned_of_int, UINT_MODULUS. intros Hz.
  rewrite Z2N.id by (apply Z.mod_pos_bound; lia).
  destruct (Z.ltb_spec z 0).
  - rewrite <- (Z.mod_add z 1 (2 ^ 32)) by lia.
    rewrite Z.mod_small; lia.
  - rewrite Z.mod_small; lia.
Qed.

Lemma int_of_unsigned_of_int (z : Z) :
  INT_MIN <= z <= INT_MAX -> int_of_unsigned (unsigned_of_int z) = z.
Proof.
  intros Hz. unfold int_of_unsigned. rewrite (unsigned_of_int_value z Hz).
  unfold INT_MIN, INT_MAX, UINT_MODULUS in *.
  destruct (Z.ltb_spec z 0);
    [destruct (Z.leb_spec (z + 2 ^ 32) (2 ^ 31 - 1))
    |destruct (Z.leb_spec z (2 ^ 31 - 1))]; lia.
Qed.

Lemma unsigned_of_int_eq (z : Z) (n : N) :
  INT_MIN <= z <= INT_MAX -> (n < 2 ^ 31)%N ->
  unsigned_of_int z = n <-> z = Z.of_N n.
Proof.
  intros Hz Hn. pose proof (unsigned_of_int_value z Hz) as Hv.
  unfold INT_MIN, INT_MAX, UINT_MODULUS in *.
  assert (Hn' : Z.of_N n < 2 ^ 31) by (change (2 ^ 31) with (Z.of_N (2 ^ 31)); lia).
  destruct (Z.ltb_spec z 0); split; intros Heq; subst; lia.
Qed.

(** X19: for -s alone with an argument atoi turns into an int z, the
    options are accepted exactly when z is 1 or 4; any other z, negative
    ones included (they wrap to large unsigned values), is rejected with the
    message showing z itself, followed by the help text and exit status 0. *)
Theorem samples_per_symbol_option (v : string) :
  INT_MIN <= atoi v <= INT_MAX ->
  let run := handle_options [("s"%char, Some v)] in
  (atoi v = 1 \/ atoi v = 4 ->
   run = ([], Returned (set_rx_sps default_config (Z.to_N (atoi v)))))
  /\ (atoi v <> 1 -> atoi v <> 4 ->
      run = ([EvPrintf "Unsupported samples-per-symbol %i" (atoi v);
              EvStdout help_text], Exited 0)).
Proof.
  intros Hz run. subst run. unfold handle_options.
  cbn [getopt_loop c_str]. rewrite bind_ret. cbn [getopt_loop]. rewrite bind_ret.
  split.
  - intros [-> | ->]; reflexivity.
  - intros H1 H4. unfold check_config. cbn [rx_sps set_rx_sps].
    assert (N1 : unsigned_of_int (atoi v) <> 1%N)
      by (rewrite unsigned_of_int_eq by (assumption || reflexivity); exact H1).
    assert (N4 : unsigned_of_int (atoi v) <> 4%N)
      by (rewrite unsigned_of_int_eq by (assumption || reflexivity); exact H4).
    apply N.eqb_neq in N1, N4. rewrite N1, N4.
    rewrite (int_of_unsigned_of_int _ Hz). reflexivity.
Qed.

(** X20: for -t alone with an argument atoi turns into an int z, the
    options are accepted exactly when 0 <= z <= 7 (0 included, though the
    help text says 1 to 7); any other z, negative ones included, is rejected
    with the message showing z itself, followed by the help text and exit
    status 0. *)
Theorem training_sequence_option (v : string) :
  INT_MIN <= atoi v <= INT_MAX ->
  let run := handle_options [("t"%char, Some v)] in
  (0 <= atoi v <= 7 ->
   run = ([], Returned (set_rtsc default_config (Z.to_N (atoi v)))))
  /\ (~ 0 <= atoi v <= 7 ->
      run = ([EvPrintf "Invalid training sequence %i" (atoi v);
              EvStdout help_text], Exited 0)).
Proof.
  intros Hz run. subst run. unfold handle_options.
  cbn [getopt_loop c_str]. rewrite bind_ret. cbn [getopt_loop]. rewrite bind_ret.
  pose proof (unsigned_of_int_value _ Hz) as Hv.
  unfold INT_MIN, INT_MAX, UINT_MODULUS in *.
  unfold check_config. cbn [rx_sps rtsc edge set_rtsc default_config].
  split.
  - intros Hin.
    destruct (Z.ltb_spec (atoi v) 0); [lia|].
    destruct (N.ltb_spec 7 (unsigned_of_int (atoi v))); [lia|].
    assert (Hu : unsigned_of_int (atoi v) = Z.to_N (atoi v))
      by (apply N2Z.inj; rewrite Z2N.id by lia; exact Hv).
    rewrite Hu. reflexivity.
  - intros Hout.
    destruct (N.ltb_spec 7 (unsigned_of_int (atoi v))) as [_|Hle].
    + rewrite (int_of_unsigned_of_int (atoi v)) by (unfold INT_MIN, INT_MAX; lia).
      reflexivity.
    + destruct (Z.ltb_spec (atoi v) 0); lia.
Qed.

End MoreProperties.

(* ================================================================== *)
(** ** The properties on the test bench *)

#[local] Existing Instance Bench.platform.

(** EDGE requested at 4 samples per symbol, the EDGE correlator answers 0 and
    the normal-burst correlator answers 1. *)
Lemma detectBurst_EDGE_falls_back_to_TSC_witness :
  let lib := Bench.lib 0 1 0 in
  let cfg := Bench.config 4 true 0 in
  let run := detectBurst (Lib := lib) cfg Bench.burst (0, 0)%Q 0%Q EDGE in
  0 <= 0
  /\ trace_of run =
       [EvDetectEdgeBurst Bench.burst 0 5%Q 4 30;
        EvAnalyzeTrafficBurst Bench.burst 0 5%Q 4 30]
  /\ outcome_of run = Returned (int_of_CorrType TSC, (1, 0)%Q, 2%Q).
Proof.
  intros lib cfg run.
  destruct (detectBurst_EDGE_falls_back_to_TSC (Lib := lib) cfg Bench.burst
              (0, 0)%Q 0%Q 0 1 (1, 0)%Q (1, 0)%Q 2%Q 2%Q
              eq_refl ltac:(lia) eq_refl) as [Htrace Hcode].
  split; [lia|]. split; [exact Htrace|].
  apply Hcode. lia.
Defined.

(** IDLE requested: the bench library has [SIGERR_NONE = 0]. *)
Lemma detectBurst_IDLE_is_neutral_witness :
  let lib := Bench.lib 1 1 1 in
  (SIGERR_NONE (SigProcLib := lib) <= 0 /\ Z.abs (SIGERR_NONE (SigProcLib := lib)) < 2 ^ 24)
  /\ detectBurst (Lib := lib) (Bench.config 1 false 0) Bench.burst (0, 0)%Q 0%Q IDLE
     = ([], Returned (0, (0, 0)%Q, 0%Q)).
Proof.
  intros lib.
  assert (Hneutral : SIGERR_NONE (SigProcLib := lib) <= 0) by (cbn; lia).
  assert (Hexact : Z.abs (SIGERR_NONE (SigProcLib := lib)) < 2 ^ 24) by (cbn; lia).
  split; [split; assumption|].
  exact (detectBurst_IDLE_is_neutral (Lib := lib) (Bench.config 1 false 0) Bench.burst
           (0, 0)%Q 0%Q Hneutral Hexact).
Defined.

(** OFF requested. *)
Lemma invalid_type_is_logged_and_aborts_witness :
  let lib := Bench.lib 1 1 1 in
  let cfg := Bench.config 1 false 0 in
  (OFF <> EDGE /\ OFF <> TSC /\ OFF <> RACH /\ OFF <> IDLE)
  /\ outcome_of (demodulateBurst (Lib := lib) cfg Bench.burst 1 0%Q 7%Q OFF)
     = Returned (None, RSSI_of (Lib := lib) cfg Bench.burst, 7%Q).
Proof.
  intros lib cfg.
  assert (He : OFF <> EDGE) by discriminate.
  assert (Ht : OFF <> TSC) by discriminate.
  assert (Hr : OFF <> RACH) by discriminate.
  assert (Hi : OFF <> IDLE) by discriminate.
  split; [repeat split; assumption|].
  destruct (invalid_type_is_logged_and_aborts (Lib := lib) cfg Bench.burst 1 0%Q 7%Q
              (0, 0)%Q 0%Q OFF He Ht Hr Hi) as [_ Hdemod].
  rewrite Hdemod. reflexivity.
Defined.

(** RACH requested, the correlator answers the clipping code [-2]. *)
Lemma detection_failure_is_reported_and_local_witness :
  let lib := Bench.lib 0 0 (-2) in
  let cfg := Bench.config 1 false 0 in
  let run := demodulateBurst (Lib := lib) cfg Bench.burst 1 0%Q 7%Q RACH in
  -2 <= 0
  /\ outcome_of run = Returned (None, RSSI_of (Lib := lib) cfg Bench.burst, 7%Q)
  /\ trace_of run =
       [EvEnergyDetect Bench.burst 20 0%Q;
        EvDetectRACHBurst Bench.burst 6%Q 1 30;
        EvStdout ["Clipping detected on received RACH or Normal Burst"]].
Proof.
  intros lib cfg run.
  pose proof (detection_failure_is_reported_and_local (Lib := lib) cfg Bench.burst
                1 0%Q 7%Q RACH) as W.
  cbv zeta in W. destruct W as [_ W].
  destruct (W [EvDetectRACHBurst Bench.burst 6%Q 1 30] (-2) (1, 0)%Q 2%Q
              eq_refl ltac:(lia)) as (Hnull & Hclip & _ & _).
  split; [lia|]. split; [exact Hnull|].
  exact (Hclip eq_refl).
Defined.

(** One sample per symbol: the window is 20 samples. *)
Lemma RSSI_is_computed_before_detection_witness :
  let lib := Bench.lib 0 0 0 in
  let cfg := Bench.config 1 false 0 in
  (20 * 1 < 2 ^ 32)%N
  /\ exists tr' softBits timingOffset',
       demodulateBurst (Lib := lib) cfg Bench.burst 1 0%Q 7%Q TSC =
         (EvEnergyDetect Bench.burst 20 0%Q ::
            trace_of (detectBurst (Lib := lib) cfg Bench.burst (0, 0)%Q 0%Q TSC) ++ tr',
          Returned (softBits,
                    Qmult 20 (Qdiv (inject_Z SHRT_MAX) 100),
                    timingOffset')).
Proof.
  intros lib cfg.
  assert (Hfit : (20 * rx_sps cfg < 2 ^ 32)%N) by (cbn; lia).
  split; [exact Hfit|].
  exact (RSSI_is_computed_before_detection (Lib := lib) cfg Bench.burst 1 0%Q 7%Q
           TSC Hfit).
Defined.

(** EDGE requested, EDGE correlator fails, normal-burst correlator succeeds:
    the generic demodulator (soft bit 1) runs, not the EDGE one (soft bit 3). *)
Lemma dispatch_follows_resolved_type_witness :
  let lib := Bench.lib 0 1 0 in
  let cfg := Bench.config 4 true 0 in
  let run := demodulateBurst (Lib := lib) cfg Bench.burst 4 0%Q 7%Q EDGE in
  (0 <= 0 /\ 0 < 1)
  /\ trace_of run =
       [EvEnergyDetect Bench.burst 80 0%Q;
        EvDetectEdgeBurst Bench.burst 0 5%Q 4 30;
        EvAnalyzeTrafficBurst Bench.burst 0 5%Q 4 30;
        EvDemodulateBurst Bench.burst 4 (1, 0)%Q 2%Q]
  /\ exists r t, outcome_of run = Returned (Some [1], r, t).
Proof.
  intros lib cfg run.
  destruct (dispatch_follows_resolved_type (Lib := lib) cfg Bench.burst 4 0%Q 7%Q)
    as [_ Hscenario].
  split; [lia|].
  exact (Hscenario 0 1 (1, 0)%Q (1, 0)%Q 2%Q 2%Q eq_refl ltac:(lia) eq_refl ltac:(lia)).
Defined.

(** TSC requested at 4 samples per symbol, time of arrival 2 samples. *)
Lemma timingOffset_is_toa_over_SPSRx_witness :
  let lib := Bench.lib 0 1 0 in
  let cfg := Bench.config 4 false 0 in
  0 < 1
  /\ exists softBits RSSI',
       outcome_of (demodulateBurst (Lib := lib) cfg Bench.burst 4 0%Q 7%Q TSC) =
         Returned (softBits, RSSI', Qdiv 2 (inject_Z 4)).
Proof.
  intros lib cfg. split; [lia|].
  exact (timingOffset_is_toa_over_SPSRx (Lib := lib) cfg Bench.burst 4 0%Q 7%Q TSC
           [EvAnalyzeTrafficBurst Bench.burst 0 5%Q 4 30] 1 (1, 0)%Q 2%Q
           eq_refl ltac:(lia)).
Defined.

(** IDLE requested with [timingOffset] holding 7 on entry. *)
Lemma timingOffset_is_kept_on_failure_witness :
  let lib := Bench.lib 1 1 1 in
  let cfg := Bench.config 1 false 0 in
  0 <= 0
  /\ outcome_of (demodulateBurst (Lib := lib) cfg Bench.burst 1 0%Q 7%Q IDLE)
     = Returned (None, RSSI_of (Lib := lib) cfg Bench.burst, 7%Q).
Proof.
  intros lib cfg. split; [lia|].
  pose proof (timingOffset_is_kept_on_failure (Lib := lib) cfg Bench.burst 1 0%Q 7%Q
                IDLE) as W.
  cbv zeta in W. destruct W as [_ W].
  exact (W [] 0 (0, 0)%Q 0%Q eq_refl ltac:(lia)).
Defined.

(** [-e] alone: EDGE at the default of one sample per symbol. *)
Lemma validator_accepts_exactly_valid_configs_witness :
  let lib := Bench.lib 1 1 1 in
  let cfg := set_edge default_config true in
  ~ config_valid cfg
  /\ exists msg,
       main (Lib := lib) [("e"%char, None)] = ([msg; EvStdout help_text], Exited 0).
Proof.
  intros lib cfg.
  assert (Hbad : ~ config_valid cfg).
  { intros (_ & _ & Hedge). specialize (Hedge eq_refl). discriminate. }
  split; [exact Hbad|].
  destruct (validator_accepts_exactly_valid_configs (Lib := lib) cfg) as (_ & _ & Hmain).
  exact (Hmain [("e"%char, None)] [] eq_refl Hbad).
Defined.

(** Four samples per symbol. *)
Lemma main_burst_ignores_samples_per_symbol_witness :
  let lib := Bench.lib 0 1 0 in
  let cfg := Bench.config 4 false 0 in
  rx_sps cfg = 4%N
  /\ exists burst tr,
       main_burst (Lib := lib) cfg =
         (EvFileRead "burst.cfile" 1248 :: EvEnergyDetect burst 80 0%Q :: tr, Returned 0)
       /\ sv_size burst = 156%N
       /\ sv_size burst <> (156 * 4)%N.
Proof.
  intros lib cfg. split; [reflexivity|].
  destruct (main_burst_ignores_samples_per_symbol (Lib := lib) cfg eq_refl)
    as (burst & tr & Hrun & Hsize & Hne & _).
  exists burst, tr. repeat split; assumption.
Defined.

(* ================================================================== *)
(** ** The further properties on the test bench *)

(** TSC requested, the correlator answers 1. *)
Lemma detectBurst_positive_code_is_burst_type_witness :
  let lib := Bench.lib 0 1 0 in
  let cfg := Bench.config 1 false 0 in
  (SIGERR_NONE (SigProcLib := lib) <= 0 /\ 0 < 1)
  /\ ((1 = int_of_CorrType TSC /\ (TSC = TSC \/ TSC = RACH \/ TSC = EDGE))
      \/ (TSC = EDGE /\ 1 = int_of_CorrType TSC)).
Proof.
  intros lib cfg.
  assert (Hneutral : SIGERR_NONE (SigProcLib := lib) <= 0) by (cbn; lia).
  split; [split; [exact Hneutral | lia]|].
  exact (detectBurst_positive_code_is_burst_type (Lib := lib) cfg Bench.burst
           (0, 0)%Q (1, 0)%Q 0%Q 2%Q TSC
           [EvAnalyzeTrafficBurst Bench.burst 0 5%Q 1 30] 1
           Hneutral eq_refl ltac:(lia)).
Defined.

(** EDGE requested, the EDGE correlator answers the clipping code [-2] and
    the normal-burst correlator 0: the result is 0, not [-2]. *)
Lemma detectBurst_EDGE_miss_is_TSC_request_witness :
  let lib := Bench.lib (-2) 0 0 in
  let cfg := Bench.config 4 true 0 in
  -2 <= 0
  /\ outcome_of (detectBurst (Lib := lib) cfg Bench.burst (0, 0)%Q 0%Q EDGE)
     = Returned (0, (1, 0)%Q, 2%Q).
Proof.
  intros lib cfg. split; [lia|].
  rewrite (detectBurst_EDGE_miss_is_TSC_request (Lib := lib) cfg Bench.burst
             (0, 0)%Q (1, 0)%Q 0%Q 2%Q (-2) eq_refl ltac:(lia)).
  reflexivity.
Defined.

(** RACH requested, the correlator answers the clipping code [-2]. *)
Lemma detectBurst_RACH_passes_correlator_code_witness :
  let lib := Bench.lib 0 0 (-2) in
  let cfg := Bench.config 1 false 0 in
  exists rc,
    detectBurst (Lib := lib) cfg Bench.burst (0, 0)%Q 0%Q RACH =
      ([EvDetectRACHBurst Bench.burst 6%Q 1 30], Returned (rc, (1, 0)%Q, 2%Q))
    /\ rc = -2.
Proof.
  intros lib cfg.
  destruct (detectBurst_RACH_passes_correlator_code (Lib := lib) cfg Bench.burst
              (0, 0)%Q (1, 0)%Q 0%Q 2%Q (-2) eq_refl)
    as (rc & Hrun & _ & _ & _ & Hsame).
  exists rc. split; [exact Hrun|].
  apply Hsame; cbn; lia.
Defined.

(** Two configurations that differ in the training sequence and the
    normal-burst delay bound, on a RACH request. *)
Lemma detectBurst_reads_only_its_fields_witness :
  let lib := Bench.lib 0 0 1 in
  detectBurst (Lib := lib) (Bench.config 1 false 0) Bench.burst (0, 0)%Q 0%Q RACH
  = detectBurst (Lib := lib) (Bench.config 1 true 7) Bench.burst (0, 0)%Q 0%Q RACH.
Proof.
  intros lib.
  apply (detectBurst_reads_only_its_fields (Lib := lib));
    [reflexivity | reflexivity | intros Hne; now elim Hne].
Defined.

(** The same configuration with and without the EDGE flag. *)
Lemma demodulateBurst_reads_only_detection_inputs_witness :
  let lib := Bench.lib 1 0 0 in
  same_detection_inputs (Bench.config 4 true 0) (Bench.config 4 false 0)
  /\ demodulateBurst (Lib := lib) (Bench.config 4 true 0) Bench.burst 4 0%Q 7%Q EDGE
     = demodulateBurst (Lib := lib) (Bench.config 4 false 0) Bench.burst 4 0%Q 7%Q EDGE.
Proof.
  intros lib.
  assert (Hsame : same_detection_inputs (Bench.config 4 true 0) (Bench.config 4 false 0))
    by (repeat split).
  split; [exact Hsame|].
  exact (demodulateBurst_reads_only_detection_inputs (Lib := lib) _ _ Bench.burst 4
           0%Q 7%Q EDGE Hsame).
Defined.

(** IDLE requested on the bench, where [SIGERR_NONE = 0] and [SIGERR_CLIP = 2]. *)
Lemma demodulateBurst_IDLE_only_measures_energy_witness :
  let lib := Bench.lib 1 1 1 in
  let cfg := Bench.config 1 false 0 in
  demodulateBurst (Lib := lib) cfg Bench.burst 1 0%Q 7%Q IDLE =
    ([EvEnergyDetect Bench.burst 20 0%Q],
     Returned (None, RSSI_of (Lib := lib) cfg Bench.burst, 7%Q)).
Proof.
  intros lib cfg.
  apply (demodulateBurst_IDLE_only_measures_energy (Lib := lib) cfg Bench.burst 1
           0%Q 7%Q); cbn; lia.
Defined.

(** RACH requested, the correlator answers 1. *)
Lemma demodulateBurst_RACH_detected_witness :
  let lib := Bench.lib 0 0 1 in
  let cfg := Bench.config 1 false 0 in
  0 < 1
  /\ outcome_of (demodulateBurst (Lib := lib) cfg Bench.burst 1 0%Q 7%Q RACH)
     = Returned (Some [1], RSSI_of (Lib := lib) cfg Bench.burst, Qdiv 2 (inject_Z 1)).
Proof.
  intros lib cfg. split; [lia|].
  rewrite (demodulateBurst_RACH_detected (Lib := lib) cfg Bench.burst 1 0%Q 7%Q
             1 (1, 0)%Q 2%Q eq_refl ltac:(lia)).
  reflexivity.
Defined.

(** EDGE requested at 4 samples per symbol, the EDGE correlator answers 1. *)
Lemma demodulateBurst_EDGE_detected_witness :
  let lib := Bench.lib 1 0 0 in
  let cfg := Bench.config 4 true 0 in
  0 < 1
  /\ outcome_of (demodulateBurst (Lib := lib) cfg Bench.burst 4 0%Q 7%Q EDGE)
     = Returned (Some [3], RSSI_of (Lib := lib) cfg Bench.burst, Qdiv 2 (inject_Z 4)).
Proof.
  intros lib cfg. split; [lia|].
  rewrite (demodulateBurst_EDGE_detected (Lib := lib) cfg Bench.burst 4 0%Q 7%Q
             1 (1, 0)%Q 2%Q eq_refl ltac:(lia)).
  reflexivity.
Defined.

(** [-s 3 -h]: three samples per symbol would be rejected, but the help
    option comes first. *)
Lemma help_option_preempts_validation_witness :
  let lib := Bench.lib 0 1 0 in
  main (Lib := lib) [("s"%char, Some "3"); ("h"%char, None)]
  = ([EvStdout help_text], Exited 0).
Proof.
  intros lib.
  exact (help_option_preempts_validation (Lib := lib) [("s"%char, Some "3")] []
           "h"%char None (set_rx_sps default_config 3) eq_refl eq_refl).
Defined.

(** [-l] as getopt reports it for the option string of the program: without
    an argument. *)
Lemma null_optarg_is_undefined_witness :
  let lib := Bench.lib 0 1 0 in
  main (Lib := lib) [("l"%char, None); ("f"%char, Some "burst.cfile")]
  = ([], Undefined).
Proof.
  intros lib.
  exact (null_optarg_is_undefined (Lib := lib) [] [("f"%char, Some "burst.cfile")]
           "l"%char default_config eq_refl eq_refl).
Defined.

(** [-e -s 4 -t 7]. *)
Lemma handle_options_result_witness :
  let results := [("e"%char, None); ("s"%char, Some "4"); ("t"%char, Some "7")] in
  let cfg := set_rtsc (set_rx_sps (set_edge default_config true) 4) 7 in
  handle_options results = ([], Returned cfg)
  /\ config_valid cfg /\ type cfg = TSC.
Proof.
  intros results cfg.
  assert (Hrun : handle_options results = ([], Returned cfg)) by reflexivity.
  split; [exact Hrun|].
  destruct (handle_options_result results [] cfg Hrun) as (_ & Hv & Hty & _).
  now split.
Defined.


(** [-s -3]. *)
Lemma samples_per_symbol_option_witness :
  handle_options [("s"%char, Some "-3")] =
    ([EvPrintf "Unsupported samples-per-symbol %i" (-3); EvStdout help_text],
     Exited 0).
Proof.
  assert (Hz : INT_MIN <= atoi "-3" <= INT_MAX) by (vm_compute; split; discriminate).
  destruct (samples_per_symbol_option "-3" Hz) as [_ Hrej].
  apply Hrej; vm_compute; discriminate.
Defined.

(** [-t -1] and [-t 0]. *)
Lemma training_sequence_option_witness :
  handle_options [("t"%char, Some "-1")] =
    ([EvPrintf "Invalid training sequence %i" (-1); EvStdout help_text], Exited 0)
  /\ handle_options [("t"%char, Some "0")] = ([], Returned (set_rtsc default_config 0)).
Proof.
  split.
  - assert (Hz : INT_MIN <= atoi "-1" <= INT_MAX)
      by (vm_compute; split; discriminate).
    destruct (training_sequence_option "-1" Hz) as [_ Hrej].
    apply Hrej. vm_compute. intros [Hlo _]. now apply Hlo.
  - assert (Hz : INT_MIN <= atoi "0" <= INT_MAX)
      by (vm_compute; split; discriminate).
    destruct (training_sequence_option "0" Hz) as [Hacc _].
    apply Hacc. vm_compute. split; discriminate.
Defined.

(** TSC requested, the correlator answers the clipping code [-2]. *)
Lemma detectBurst_TSC_passes_correlator_code_witness :
  let lib := Bench.lib 0 (-2) 0 in
  let cfg := Bench.config 1 false 0 in
  exists rc,
    detectBurst (Lib := lib) cfg Bench.burst (0, 0)%Q 0%Q TSC =
      ([EvAnalyzeTrafficBurst Bench.burst 0 5%Q 1 30], Returned (rc, (1, 0)%Q, 2%Q))
    /\ rc = -2.
Proof.
  intros lib cfg.
  destruct (detectBurst_TSC_passes_correlator_code (Lib := lib) cfg Bench.burst
              (0, 0)%Q (1, 0)%Q 0%Q 2%Q (-2) eq_refl)
    as (rc & Hrun & _ & _ & _ & Hsame).
  exists rc. split; [exact Hrun|].
  apply Hsame; cbn; lia.
Defined.

(** [-s 1] then [-s 4]: the later option wins. *)
Lemma getopt_loop_app_witness :
  getopt_loop ([("s"%char, Some "1")] ++ [("s"%char, Some "4")]) default_config
  = ([], Returned (set_rx_sps (set_rx_sps default_config 1) 4)).
Proof.
  destruct (getopt_loop_app [("s"%char, Some "1")] [("s"%char, Some "4")]
              default_config) as (_ & Hthen & _).
  rewrite (Hthen (set_rx_sps default_config 1) eq_refl). reflexivity.
Defined.

(** [-e -f burst.cfile]: the loop returns without output and the requested
    type is still TSC. *)
Lemma getopt_loop_is_silent_and_keeps_fixed_fields_witness :
  let results := [("e"%char, None); ("f"%char, Some "burst.cfile")] in
  let cfg := set_filename (set_edge default_config true) "burst.cfile" in
  getopt_loop results default_config = ([], Returned cfg)
  /\ same_fixed_fields default_config cfg.
Proof.
  intros results cfg.
  assert (Hrun : getopt_loop results default_config = ([], Returned cfg))
    by reflexivity.
  split; [exact Hrun|].
  destruct (getopt_loop_is_silent_and_keeps_fixed_fields results default_config)
    as (Hret & _ & _).
  exact (proj2 (Hret [] cfg Hrun)).
Defined.
